(** * Module registry resolution ([src/utils/registry.ts])

    A shallow embedding of the registry helpers of the module browser:
    the URL builders, the branch/tag transformer and fetcher, the metadata
    orchestrator [fetchModuleMetadata] and the content-type classifier.

    Conventions of the embedding.
    - A JavaScript string is a [string]; one [ascii] stands for one UTF-16
      code unit below 256, so the line terminators that [.] refuses are
      LF and CR (U+2028 and U+2029 lie outside this range).
    - A [throw] (or a rejected promise) is the left injection of a sum whose
      left type is [exn].
    - [async] code threads a [World]: the responses the network is going to
      give, in the order the requests are awaited, and the log of the
      requests issued so far. *)

From Stdlib Require Import String Ascii List ZArith Lia Bool Arith.
From Stdlib Require Import Sorting.Sorted Sorting.Permutation OrdersEx RelationClasses.
Import ListNotations.

Open Scope string_scope.
Open Scope list_scope.

(** ** Exceptions *)

Inductive exn : Type :=
| TypeError                 (* engine error: null dereference, not a function, not iterable *)
| SyntaxError               (* [resp.json()] on a body that is not JSON *)
| NetworkError              (* [fetch] rejected *)
| Error (msg : string).     (* [throw new Error(msg)] *)

Definition Exc (A : Type) : Type := (exn + A)%type.

(** ** Strings *)

Module Str.

Definition is_line_terminator (c : ascii) : bool :=
  (Ascii.eqb c "010" || Ascii.eqb c "013")%bool.

(** [Array.prototype.join] on an array of strings. *)
Definition join (sep : string) (l : list string) : string :=
  String.concat sep l.

(** [String.prototype.toLowerCase] on code units below 256: the ASCII
    capitals and the Latin-1 capitals U+00C0..U+00DE (U+00D7 apart). *)
Definition lower_char (c : ascii) : ascii :=
  let n := nat_of_ascii c in
  if ((65 <=? n) && (n <=? 90))%nat then ascii_of_nat (n + 32)
  else if ((192 <=? n) && (n <=? 222) && negb (n =? 215))%nat
       then ascii_of_nat (n + 32)
       else c.

Fixpoint toLowerCase (s : string) : string :=
  match s with
  | EmptyString => EmptyString
  | String c s' => String (lower_char c) (toLowerCase s')
  end.

(** [s.endsWith(suffix)]. *)
Definition endsWith (s suffix : string) : bool :=
  let n := String.length s in
  let m := String.length suffix in
  ((m <=? n)%nat && String.eqb (substring (n - m) m s) suffix)%bool.

End Str.

(** ** Regular expressions

    The fragment of ECMAScript regular expressions the source uses, with the
    backtracking semantics of the language: alternatives are tried in
    priority order, [+] and [?] are greedy, and [exec] tries the start
    positions from left to right.  [+] is only applied to one-character
    atoms in the source, which keeps the matcher structurally recursive. *)

Module Regex.

Inductive regex : Type :=
| Chr (c : ascii)                      (* a literal character *)
| Plus (p : ascii -> bool)             (* [atom+], atom a character class *)
| Seq (r1 r2 : regex)
| Opt (r : regex)                      (* [(?:r)?] *)
| Group (i : nat) (r : regex)          (* the i-th capturing group *)
| Eos.                                 (* [$] without the m flag *)

(** Captures: group number to captured text, [None] for [undefined]. *)
Definition captures : Type := nat -> option string.

Definition no_captures : captures := fun _ => None.

Definition set_capture (i : nat) (v : string) (c : captures) : captures :=
  fun j => if Nat.eqb j i then Some v else c j.

(** The text consumed between input [s] and its suffix [s']. *)
Definition consumed (s s' : string) : string :=
  substring 0 (String.length s - String.length s') s.

Section Matcher.
Context {A : Type}.

(** Greedy [p+]: the longest run first, then shorter ones. *)
Fixpoint plus (p : ascii -> bool) (s : string)
         (k : string -> option A) : option A :=
  match s with
  | EmptyString => None
  | String c s' =>
      if p c then
        match plus p s' k with
        | Some r => Some r
        | None => k s'
        end
      else None
  end.

Fixpoint run (r : regex) (s : string) (c : captures)
         (k : string -> captures -> option A) : option A :=
  match r with
  | Chr a =>
      match s with
      | String b s' => if Ascii.eqb a b then k s' c else None
      | EmptyString => None
      end
  | Plus p => plus p s (fun s' => k s' c)
  | Seq r1 r2 => run r1 s c (fun s' c' => run r2 s' c' k)
  | Opt r1 =>
      match run r1 s c k with
      | Some x => Some x
      | None => k s c
      end
  | Group i r1 =>
      run r1 s c (fun s' c' => k s' (set_capture i (consumed s s') c'))
  | Eos =>
      match s with
      | EmptyString => k s c
      | String _ _ => None
      end
  end.
End Matcher.

(** [r.exec(s)] for a regex without flags: [None] is [null]. *)
Fixpoint exec (r : regex) (s : string) : option captures :=
  match run r s no_captures (fun _ c => Some c) with
  | Some c => Some c
  | None =>
      match s with
      | EmptyString => None
      | String _ s' => exec r s'
      end
  end.

(** [.] *)
Definition dot (c : ascii) : bool := negb (Str.is_line_terminator c).

End Regex.

(** ** [getContentType] *)

(** The class [[0-9a-z-_]]. *)
Definition ident_char (c : ascii) : bool :=
  let n := nat_of_ascii c in
  (((48 <=? n) && (n <=? 57)) || ((97 <=? n) && (n <=? 122))
   || (n =? 45) || (n =? 95))%nat%bool.

(** [/.+\.(.+)$/] *)
Definition re_extension : Regex.regex :=
  Regex.Seq (Regex.Plus Regex.dot)
    (Regex.Seq (Regex.Chr ".")
       (Regex.Seq (Regex.Group 1 (Regex.Plus Regex.dot)) Regex.Eos)).

(** Indexing the result of [exec] throws when the result is [null]; the
    [switch] compares the captured extension with [===]. *)
Definition getContentType (name : string) : Exc string :=
  match Regex.exec re_extension name with
  | None => inl TypeError
  | Some c =>
      match c 1 with
      | Some ext =>
          if String.eqb ext "js" then inr "application/javascript"
          else if String.eqb ext "ts" then inr "application/typescript"
          else inr "text/plain"
      | None => inr "text/plain"
      end
  end.

(** ** JavaScript values

    Data whose source type is [any] (decoded JSON bodies and what is read
    out of them).  The code tests such a value for truth and converts it to
    a string, and does nothing else with a number: a number is kept as what
    these two give, whether it is zero and the text [Number::toString]
    prints for it.  An object is the list of its own properties, each key
    once, in a decoded body all of them data properties. *)

#[warnings="-register-all"] Inductive Value : Type :=
| VUndefined
| VNull
| VBool (b : bool)
| VNum (isZero : bool) (repr : string)
| VStr (s : string)
| VArr (l : list Value)
| VObj (fields : list (string * Value)).

Module Js.

(** [ToBoolean]. *)
Definition truthy (v : Value) : bool :=
  match v with
  | VUndefined | VNull => false
  | VBool b => b
  | VNum isZero _ => negb isZero
  | VStr s => negb (String.eqb s "")
  | VArr _ | VObj _ => true
  end.

Fixpoint lookup (key : string) (fields : list (string * Value)) : Value :=
  match fields with
  | [] => VUndefined
  | (k, v) :: rest => if String.eqb k key then v else lookup key rest
  end.

(** [v.key] for the keys the source reads ([default_branch], [Branches],
    [Tags], [name], [type], [encoding], [content], [download_url]): none
    of them is an own property of a primitive or an array, nor inherited
    from a prototype. *)
Definition getProp (v : Value) (key : string) : Exc Value :=
  match v with
  | VUndefined | VNull => inl TypeError
  | VObj fields => inr (lookup key fields)
  | _ => inr VUndefined
  end.

Definition hasOwn (key : string) (fields : list (string * Value)) : bool :=
  existsb (fun kv => String.eqb (fst kv) key) fields.

(** [ToString], as applied by template literals and string arguments.
    An array is joined with commas, [undefined] and [null] elements giving
    the empty string.  An object goes through [ToPrimitive]: an own
    [toString] property of a decoded body is data, not callable, and the
    inherited [valueOf] returns the object itself, so the conversion throws
    a [TypeError]; without that key [Object.prototype.toString] answers. *)
Fixpoint toString (v : Value) : Exc string :=
  match v with
  | VUndefined => inr "undefined"
  | VNull => inr "null"
  | VBool true => inr "true"
  | VBool false => inr "false"
  | VNum _ repr => inr repr
  | VStr s => inr s
  | VArr l =>
      match (fix elements (l : list Value) : Exc (list string) :=
               match l with
               | [] => inr []
               | e :: l' =>
                   match (match e with
                          | VUndefined | VNull => inr ""
                          | _ => toString e
                          end) with
                   | inl x => inl x
                   | inr s =>
                       match elements l' with
                       | inl x => inl x
                       | inr ss => inr (s :: ss)
                       end
                   end
               end) l with
      | inl x => inl x
      | inr ss => inr (Str.join "," ss)
      end
  | VObj fields =>
      if hasOwn "toString" fields then inl TypeError
      else inr "[object Object]"
  end.

(** Spreading [...v] into an array literal. *)
Fixpoint chars (s : string) : list Value :=
  match s with
  | EmptyString => []
  | String c s' => VStr (String c EmptyString) :: chars s'
  end.

Definition spread (v : Value) : Exc (list Value) :=
  match v with
  | VArr l => inr l
  | VStr s => inr (chars s)
  | _ => inl TypeError
  end.

End Js.

(** ** Sequencing of code that may throw *)

Module ExcM.

Definition bind {A B : Type} (c : Exc A) (k : A -> Exc B) : Exc B :=
  match c with
  | inl e => inl e
  | inr a => k a
  end.

(** [Array.prototype.map] with a callback that may throw. *)
Fixpoint mapM {A B : Type} (f : A -> Exc B) (l : list A) : Exc (list B) :=
  match l with
  | [] => inr []
  | x :: l' =>
      bind (f x) (fun y => bind (mapM f l') (fun ys => inr (y :: ys)))
  end.

End ExcM.

(** ** The network *)

Definition Headers : Type := list (string * string).

Record Request : Type := mkRequest {
  url : string;
  headers : option Headers            (* [None]: no [headers] given *)
}.

Record Response : Type := mkResponse {
  ok : bool;
  text : string;                      (* the body, [resp.text()] *)
  json : option Value                 (* the body decoded, [None] when it is not JSON *)
}.

Inductive Reply : Type :=
| Rejected                            (* the request failed *)
| Responded (r : Response).

(** The replies still to come, one per request in the order the requests
    are awaited, and the requests issued so far (oldest first).  A request
    beyond the last reply fails like a rejected one. *)
Record World : Type := mkWorld {
  replies : list Reply;
  requests : list Request
}.

Definition M (A : Type) : Type := World -> Exc A * World.

Module Async.

Definition ret {A : Type} (a : A) : M A := fun w => (inr a, w).

Definition throw {A : Type} (e : exn) : M A := fun w => (inl e, w).

Definition bind {A B : Type} (c : M A) (k : A -> M B) : M B :=
  fun w =>
    match c w with
    | (inl e, w') => (inl e, w')
    | (inr a, w') => k a w'
    end.

Definition lift {A : Type} (c : Exc A) : M A := fun w => (c, w).

(** [await fetch(url, { headers })] *)
Definition fetch (u : string) (h : option Headers) : M Response :=
  fun w =>
    let log := requests w ++ [mkRequest u h] in
    match replies w with
    | Responded r :: rest => (inr r, mkWorld rest log)
    | Rejected :: rest => (inl NetworkError, mkWorld rest log)
    | [] => (inl NetworkError, mkWorld [] log)
    end.

(** [await resp.json()] *)
Definition getJson (r : Response) : M Value :=
  match json r with
  | Some v => ret v
  | None => throw SyntaxError
  end.

End Async.

Declare Scope async_scope.
Delimit Scope async_scope with async.
Notation "x <- c1 ;; c2" := (Async.bind c1 (fun x => c2))
  (at level 61, c1 at next level, right associativity) : async_scope.
Notation "' pat <- c1 ;; c2" := (Async.bind c1 (fun x => match x with pat => c2 end))
  (at level 61, pat pattern, c1 at next level, right associativity) : async_scope.

(** ** Module references *)

(** What the module lookup returns: the provider type tag, the organisation
    and the repository. *)
Record ModuleReference : Type := mkRef {
  type : string;
  org : string;
  repo : string
}.

(** [DenoModule]: [{ name, ...module, repoUrl }]. *)
Record DenoModule : Type := mkMeta {
  name : string;
  ref : ModuleReference;
  repoUrl : string
}.

(** ** URL builders *)

Definition createRepoUrl (m : ModuleReference) : Exc string :=
  if String.eqb (type m) "GitHub" then
    inr ("https://github.com/" ++ org m ++ "/" ++ repo m)%string
  else if String.eqb (type m) "GitLab" then
    inr ("https://gitlab.com/" ++ org m ++ "/" ++ repo m)%string
  else inl (Error "invalid module type").

Definition createBranchtagUrls (m : ModuleReference) : Exc (list string) :=
  if String.eqb (type m) "GitHub" then
    inr [ ("https://api.github.com/repos/" ++ org m ++ "/" ++ repo m ++ "/branches")%string;
          ("https://api.github.com/repos/" ++ org m ++ "/" ++ repo m ++ "/tags")%string ]
  else if String.eqb (type m) "GitLab" then
    inr [ ("https://gitlab.com/" ++ org m ++ "/" ++ repo m ++ "/refs")%string ]
  else inl (Error "invalid module type").

(** ** [transformBranchtags] *)

Definition transformBranchtags (data : Value) (ty : string) : Exc (list Value) :=
  if String.eqb ty "GitHub" then
    match data with
    | VArr l => ExcM.mapM (fun e => Js.getProp e "name") l
    | _ => inl TypeError                 (* [data.map] is not a function *)
    end
  else if String.eqb ty "GitLab" then
    ExcM.bind (Js.getProp data "Branches") (fun b =>
    ExcM.bind (Js.spread b) (fun bs =>
    ExcM.bind (Js.getProp data "Tags") (fun t =>
    ExcM.bind (Js.spread t) (fun ts =>
    inr (bs ++ ts)))))
  else inl (Error "invalid module type").


(** ** The orchestrator's result *)

Record Resolution : Type := mkResolution {
  meta : DenoModule;
  branchtag : Value;
  branchtags : option (list Value);           (* [None]: null *)
  segments : list string;
  breadcrumbs : option (list (list string));  (* [None]: null *)
  path : string;
  tree : Value;
  readme : option string;                     (* [None]: null *)
  content : Value;
  sourceUrl : Value;
  errors : Value
}.

Inductive ResolutionResult : Type :=
| NotFound (segs : list string)               (* [{ segments }] *)
| Resolved (r : Resolution).

(** [/([0-9a-z-_]+)(?:@(.+))?/] *)
Definition re_segment0 : Regex.regex :=
  Regex.Seq (Regex.Group 1 (Regex.Plus ident_char))
    (Regex.Opt (Regex.Seq (Regex.Chr "@") (Regex.Group 2 (Regex.Plus Regex.dot)))).

(** [segments[0]] as [exec] sees it: a missing element is [undefined],
    which [exec] converts to the string ["undefined"]. *)
Definition segment0 (segs : list string) : string :=
  match nth_error segs 0 with
  | Some s => s
  | None => "undefined"
  end.

(** [const captured = re.exec(segments[0]); let [, moduleName, branchtag = null] = captured;]
    Destructuring [null] throws.  Group 1 takes part in every match, so
    [moduleName] is never [undefined]. *)
Definition parseSegment0 (segs : list string) : Exc (string * Value) :=
  match Regex.exec re_segment0 (segment0 segs) with
  | None => inl TypeError
  | Some captured =>
      inr (match captured 1 with
           | Some s => s
           | None => "undefined"
           end,
           match captured 2 with
           | Some s => VStr s
           | None => VNull
           end)
  end.

(** [sx.map((_, i) => [sx[i], `/${sx.slice(0, i + 1).join("/")}`])] with
    [sx = ["x", ...segments]]. *)
Definition buildBreadcrumbs (segs : list string) : list (list string) :=
  let sx := "x" :: segs in
  map (fun i => [ nth i sx ""; ("/" ++ Str.join "/" (firstn (i + 1) sx))%string ])
      (seq 0 (List.length sx)).

(** [`/${segments.slice(1).join("/")}`] *)
Definition buildPath (segs : list string) : string :=
  ("/" ++ Str.join "/" (skipn 1 segs))%string.

Section Registry.

(** The collaborators of the module: the module lookup, the GitHub request
    headers, the host's string collation and [Buffer.from(..).toString()]. *)
Variable fetchModule : string -> option ModuleReference.
Variable getGitHubHeaders : Headers.
Variable localeCompare : string -> string -> Z.
Variable bufferToString : Value -> Value -> Exc Value.

Local Open Scope async_scope.

(** The [for (const url of urls)] loop of [fetchModuleBranchtags]. *)
Fixpoint fetchRefs (ty : string) (h : option Headers) (urls : list string)
         (refs : list Value) : M (list Value) :=
  match urls with
  | [] => Async.ret refs
  | u :: rest =>
      resp <- Async.fetch u h ;;
      data <- Async.getJson resp ;;
      out <- Async.lift (transformBranchtags data ty) ;;
      fetchRefs ty h rest (refs ++ out)
  end.

Definition fetchModuleBranchtags (m : ModuleReference) : M (list Value) :=
  urls <- Async.lift (createBranchtagUrls m) ;;
  let h := if String.eqb (type m) "GitHub" then Some getGitHubHeaders else None in
  fetchRefs (type m) h urls [].

(** [(a, b) => a.type.localeCompare(b.type)]: the receiver has to be a
    string, the argument is converted to one.  Every failure is a
    [TypeError]. *)
Definition compareType (a b : Value) : Exc Z :=
  match Js.getProp a "type", Js.getProp b "type" with
  | inr (VStr s), inr tb =>
      ExcM.bind (Js.toString tb) (fun t => inr (localeCompare s t))
  | _, _ => inl TypeError
  end.

(** [Array.prototype.sort(cmp)].  The language fixes the result (the stable
    sorted order) when [cmp] is a consistent comparator that does not throw,
    and leaves to the engine which pairs are compared and which element of
    a pair is the receiver.  Insertion from the right is one such order: it
    stands for the source where every comparison succeeds and the
    comparator is consistent, that is, on listings whose entries all have a
    string [type], under a [consistent_collation]; the statements about a
    sorted listing carry these two conditions.  A decoded JSON array has no
    [undefined] elements, which [sort] would set apart. *)
Fixpoint sortInsert (cmp : Value -> Value -> Exc Z) (x : Value) (l : list Value)
  : Exc (list Value) :=
  match l with
  | [] => inr [x]
  | y :: l' =>
      ExcM.bind (cmp x y) (fun n =>
        if (n <=? 0)%Z then inr (x :: y :: l')
        else ExcM.bind (sortInsert cmp x l') (fun r => inr (y :: r)))
  end.

Fixpoint sort (cmp : Value -> Value -> Exc Z) (l : list Value) : Exc (list Value) :=
  match l with
  | [] => inr []
  | x :: l' => ExcM.bind (sort cmp l') (fun s => sortInsert cmp x s)
  end.

(** [tree.find((t) => t.name.toLowerCase() === "readme.md")] *)
Fixpoint findReadme (l : list Value) : Exc Value :=
  match l with
  | [] => inr VUndefined
  | t :: l' =>
      match Js.getProp t "name" with
      | inr (VStr s) =>
          if String.eqb (Str.toLowerCase s) "readme.md" then inr t
          else findReadme l'
      | _ => inl TypeError
      end
  end.

(** The request headers (lines 92-97): set for GitHub only. *)
Definition requestHeaders (m : ModuleReference) : option Headers :=
  if String.eqb (type m) "GitHub" then Some getGitHubHeaders else None.

(** [if (!branchtag) { ... }] (lines 99-110). *)
Definition resolveBranchtag (m : ModuleReference) (branchtag0 : Value) : M Value :=
  if negb (Js.truthy branchtag0) then
    if String.eqb (type m) "GitHub" then
      resp <- Async.fetch
                ("https://api.github.com/repos/" ++ org m ++ "/" ++ repo m)%string
                (requestHeaders m) ;;
      data <- Async.getJson resp ;;
      Async.lift (Js.getProp data "default_branch")
    else if String.eqb (type m) "GitLab" then Async.ret branchtag0
    else Async.ret (VStr "master")
  else Async.ret branchtag0.

(** [if (!isApi) { ... }] (lines 112-123): the branch/tag list and the
    breadcrumbs. *)
Definition listBranchtags (m : ModuleReference) (segs : list string) (isApi : bool)
  : M (option (list Value) * option (list (list string))) :=
  if negb isApi then
    l <- fetchModuleBranchtags m ;;
    Async.ret (Some l, Some (buildBreadcrumbs segs))
  else Async.ret (None, None).

(** The tree request (lines 127-143): the pair of [tree] and [errors].
    Both providers build [treeUrl], whose template converts [branchtag] to
    a string; only GitHub's is requested. *)
Definition fetchTree (m : ModuleReference) (path0 : string) (bt : Value)
  : M (Value * Value) :=
  if String.eqb (type m) "GitHub" then
    ref <- Async.lift (Js.toString bt) ;;
    resp <- Async.fetch
              ("https://api.github.com/repos/" ++ org m ++ "/" ++ repo m
                 ++ "/contents" ++ path0 ++ "?ref=" ++ ref)%string
              (requestHeaders m) ;;
    if ok resp then
      t <- Async.getJson resp ;; Async.ret (t, VNull)
    else
      e <- Async.getJson resp ;; Async.ret (VNull, e)
  else if String.eqb (type m) "GitLab" then
    _ <- Async.lift (Js.toString bt) ;;
    Async.ret (VNull, VNull)
  else Async.ret (VNull, VNull).

(** [if (tree) { ... }] (lines 145-180): [tree], [readme], [content] and
    [sourceUrl]. *)
Definition readTree (m : ModuleReference) (tree0 : Value)
  : M (Value * option string * Value * Value) :=
  if Js.truthy tree0 then
    match tree0 with
    | VArr l =>
        sorted <- Async.lift (sort compareType l) ;;
        if String.eqb (type m) "GitHub" then
          file <- Async.lift (findReadme sorted) ;;
          if Js.truthy file then
            u <- Async.lift (Js.getProp file "download_url") ;;
            target <- Async.lift (Js.toString u) ;;
            resp <- Async.fetch target None ;;
            Async.ret (VArr sorted, Some (text resp), VNull, VNull)
          else Async.ret (VArr sorted, None, VNull, VNull)
        else Async.ret (VArr sorted, None, VNull, VNull)
    | file =>
        if String.eqb (type m) "GitHub" then
          enc <- Async.lift (Js.getProp file "encoding") ;;
          c <- (if Js.truthy enc then
                  raw <- Async.lift (Js.getProp file "content") ;;
                  Async.lift (bufferToString raw enc)
                else Async.lift (Js.getProp file "content")) ;;
          u <- Async.lift (Js.getProp file "download_url") ;;
          Async.ret (file, None, c, u)
        else Async.ret (file, None, VNull, VNull)
    end
  else Async.ret (tree0, None, VNull, VNull).

Definition fetchModuleMetadata (segs : list string) (isApi : bool)
  : M ResolutionResult :=
  '(moduleName, branchtag0) <- Async.lift (parseSegment0 segs) ;;
  match fetchModule moduleName with
  | None => Async.ret (NotFound segs)
  | Some module =>
      url0 <- Async.lift (createRepoUrl module) ;;
      let meta0 := mkMeta moduleName module url0 in
      bt <- resolveBranchtag module branchtag0 ;;
      '(bts, crumbs) <- listBranchtags module segs isApi ;;
      let path0 := buildPath segs in
      '(tree0, errors0) <- fetchTree module path0 bt ;;
      '(tree1, readme0, content0, sourceUrl0) <- readTree module tree0 ;;
      Async.ret (Resolved (mkResolution meta0 bt bts segs crumbs path0 tree1
                             readme0 content0 sourceUrl0 errors0))
  end.

(** The run reaches the tree request: segment 0 parses, the module is found
    and is of a known provider, and the branchtag and the branch/tag list
    are obtained, leaving the world [w2]. *)
Definition reaches_tree (segs : list string) (isApi : bool) (w : World)
           (m : ModuleReference) (meta0 : DenoModule) (bt : Value)
           (bts : option (list Value)) (crumbs : option (list (list string)))
           (w2 : World) : Prop :=
  exists moduleName branchtag0 url0 w1,
    parseSegment0 segs = inr (moduleName, branchtag0) /\
    fetchModule moduleName = Some m /\
    createRepoUrl m = inr url0 /\
    meta0 = mkMeta moduleName m url0 /\
    resolveBranchtag m branchtag0 w = (inr bt, w1) /\
    listBranchtags m segs isApi w1 = (inr (bts, crumbs), w2).

End Registry.

(** ** [isImageFromName] *)

Definition isImageFromName (name0 : string) : bool :=
  existsb (fun ext => Str.endsWith name0 ("." ++ ext)%string)
          ["gif"; "jpg"; "jpeg"; "png"; "svg"].

(** ** Vocabulary of the statements *)

Fixpoint all_chars (p : ascii -> bool) (s : string) : bool :=
  match s with
  | EmptyString => true
  | String c s' => (p c && all_chars p s')%bool
  end.

Fixpoint has_char (a : ascii) (s : string) : bool :=
  match s with
  | EmptyString => false
  | String c s' => (Ascii.eqb a c || has_char a s')%bool
  end.

(** The longest prefix of [s] made of characters in [p], and what follows it. *)
Fixpoint take_while (p : ascii -> bool) (s : string) : string :=
  match s with
  | EmptyString => EmptyString
  | String c s' => if p c then String c (take_while p s') else EmptyString
  end.

Fixpoint drop_while (p : ascii -> bool) (s : string) : string :=
  match s with
  | EmptyString => EmptyString
  | String c s' => if p c then drop_while p s' else s
  end.

Definition not_ident_char (c : ascii) : bool := negb (ident_char c).

(** [s] ends with a character in [p]. *)
Definition ends_in (p : ascii -> bool) (s : string) : Prop :=
  exists u c, s = (u ++ String c EmptyString)%string /\ p c = true.

(** A name has an extension for [getContentType] when some dot of it has a
    character other than a line terminator right before it and a non-empty
    text free of line terminators after it, up to the end of the name. *)
Definition has_extension (name0 : string) : Prop :=
  exists stem ext,
    name0 = (stem ++ "." ++ ext)%string /\ ends_in Regex.dot stem /\
    ext <> EmptyString /\ all_chars Regex.dot ext = true.

(** The leftmost maximal run of identifier characters of segment 0. *)
Definition leftmost_identifier (s : string) : string :=
  take_while ident_char (drop_while not_ident_char s).

(** What follows an [@] placed right after that run, up to the first line
    terminator; [null] when there is no such [@] or nothing follows it. *)
Definition branchtag_after (s : string) : Value :=
  match drop_while ident_char (drop_while not_ident_char s) with
  | String b rest =>
      if Ascii.eqb "@" b then
        match take_while Regex.dot rest with
        | EmptyString => VNull
        | t => VStr t
        end
      else VNull
  | EmptyString => VNull
  end.


(** One attempt of each pattern at the start of [s]. *)
Definition match_extension (s : string) : option Regex.captures :=
  Regex.run re_extension s Regex.no_captures (fun _ c => Some c).

Definition match_segment0 (s : string) : option Regex.captures :=
  Regex.run re_segment0 s Regex.no_captures (fun _ c => Some c).

(** The request log only grows and the replies are used up in order. *)
Definition steady {A : Type} (c : M A) : Prop :=
  forall w,
    (exists more, requests (snd (c w)) = requests w ++ more) /\
    (exists used, replies w = used ++ replies (snd (c w))).

(** The transformer's output for a response. *)
Definition transformed (ty : string) (r : Response) : Exc (list Value) :=
  match json r with
  | Some data => transformBranchtags data ty
  | None => inl SyntaxError
  end.

(** The [type] of a tree entry, when it is a string. *)
Definition entry_type (v : Value) : option string :=
  match Js.getProp v "type" with
  | inr (VStr s) => Some s
  | _ => None
  end.

Definition has_type (t : string) (v : Value) : bool :=
  match entry_type v with
  | Some s => String.eqb s t
  | None => false
  end.

(** Entry [a] does not come after entry [b] under the collation. *)
Definition type_le (collate : string -> string -> Z) (a b : Value) : Prop :=
  exists ta tb,
    entry_type a = Some ta /\ entry_type b = Some tb /\ (collate ta tb <= 0)%Z.

(** What [sort] asks of a comparator for its result to be defined: here,
    of the collation behind [localeCompare]. *)
Definition consistent_collation (collate : string -> string -> Z) : Prop :=
  (forall a, collate a a = 0%Z) /\
  (forall a b, (0 < collate a b)%Z -> (collate b a <= 0)%Z) /\
  (forall a b c, (collate a b <= 0)%Z -> (collate b c <= 0)%Z -> (collate a c <= 0)%Z).

(** Two collations: the lexical order of the code units, and that order on
    the lower-cased strings (letters before case, as a locale-aware
    collation has it). *)
Definition lexicalCompare (a b : string) : Z :=
  match OrdersEx.String_as_OT.compare a b with
  | Lt => (-1)%Z
  | Eq => 0%Z
  | Gt => 1%Z
  end.

Definition caseInsensitiveCompare (a b : string) : Z :=
  lexicalCompare (Str.toLowerCase a) (Str.toLowerCase b).

(** ** Sample data *)

Module Sample.

Definition std : ModuleReference := mkRef "GitHub" "denoland" "deno_std".
Definition ink : ModuleReference := mkRef "GitLab" "inkscape" "inkscape".
Definition aui : ModuleReference := mkRef "Bitbucket" "atlassian" "aui".

Definition lookup (n : string) : option ModuleReference :=
  if String.eqb n "std" then Some std
  else if String.eqb n "foo" then Some std
  else if String.eqb n "ink" then Some ink
  else if String.eqb n "aui" then Some aui
  else None.

(** A registry that has a module called ["undefined"]. *)
Definition lookupUndefined (n : string) : option ModuleReference :=
  if String.eqb n "undefined" then Some std else None.

Definition gitHubHeaders : Headers := [("Authorization", "token 0")].

(** A decoder that leaves the text as it is. *)
Definition decode (raw enc : Value) : Exc Value := inr raw.

(** A response given by its status and its decoded body; the raw text of
    the body plays no part where the body is read as JSON. *)
Definition jsonReply (status : bool) (v : Value) : Reply :=
  Responded (mkResponse status "" (Some v)).

Definition repoInfo : Reply :=
  jsonReply true (VObj [("id", VNum false "1"); ("default_branch", VStr "main")]).

Definition branches : Reply :=
  jsonReply true (VArr [VObj [("name", VStr "main")]; VObj [("name", VStr "v1")]]).

Definition tags : Reply :=
  jsonReply true (VArr [VObj [("name", VStr "v1")]]).

Definition entry (n t : string) : Value :=
  VObj [("name", VStr n); ("type", VStr t);
        ("download_url", VStr ("https://raw.example/" ++ n))].

Definition listing : list Value :=
  [entry "README.md" "file"; entry "http" "dir"; entry "mod.ts" "file";
   entry "fs" "dir"].

Definition contents : Reply := jsonReply true (VArr listing).

(** A listing whose types differ in case. *)
Definition mixedCase : list Value :=
  [entry "LICENSE" "File"; entry "src" "dir"].

Definition readmeText : Reply := Responded (mkResponse true "# std" None).

Definition notFound : Reply :=
  jsonReply false (VObj [("message", VStr "Not Found")]).

(** A gateway error: a body that is not JSON. *)
Definition badGateway : Reply :=
  Responded (mkResponse false "<html>502 Bad Gateway</html>" None).

Definition world (l : list Reply) : World := mkWorld l [].

Definition run (collate : string -> string -> Z) (segs : list string)
           (isApi : bool) (l : list Reply) : Exc ResolutionResult * World :=
  fetchModuleMetadata lookup gitHubHeaders collate decode segs isApi (world l).

End Sample.

(** ** Vocabulary of the further properties *)

(** [v.key] where it cannot throw: [undefined] for whatever is not an
    object. *)
Definition prop (key : string) (v : Value) : Value :=
  match v with
  | VObj fields => Js.lookup key fields
  | _ => VUndefined
  end.

Definition nullish (v : Value) : bool :=
  match v with
  | VUndefined | VNull => true
  | _ => false
  end.

(** What one reply gives the loop of [fetchModuleBranchtags]. *)
Definition reply_outcome (ty : string) (q : Reply) : Exc (list Value) :=
  match q with
  | Rejected => inl NetworkError
  | Responded r => transformed ty r
  end.

(** The [name] of a tree entry, when it is a string. *)
Definition entry_name (v : Value) : option string :=
  match Js.getProp v "name" with
  | inr (VStr s) => Some s
  | _ => None
  end.

(** The entry is called [readme.md], whatever the case of the letters. *)
Definition is_readme (v : Value) : bool :=
  match entry_name v with
  | Some s => String.eqb (Str.toLowerCase s) "readme.md"
  | None => false
  end.

(** Every request the computation adds to the log satisfies [P]. *)
Definition emits {A : Type} (P : Request -> Prop) (c : M A) : Prop :=
  forall w,
    exists more,
      requests (snd (c w)) = requests w ++ more /\ Forall P more.

(** A request either carries no headers, or carries the GitHub headers to
    the API of the module's own repository. *)
Definition guarded (gitHubHeaders : Headers) (m : ModuleReference)
           (q : Request) : Prop :=
  headers q = None \/
  (headers q = Some gitHubHeaders /\
   String.prefix
     ("https://api.github.com/repos/" ++ org m ++ "/" ++ repo m)%string
     (url q) = true).

(** The requests of a GitHub run up to the tree request. *)
Definition repoRequest (gitHubHeaders : Headers) (m : ModuleReference) : Request :=
  mkRequest ("https://api.github.com/repos/" ++ org m ++ "/" ++ repo m)%string
    (Some gitHubHeaders).

Definition contentsRequest (gitHubHeaders : Headers) (m : ModuleReference)
           (segs : list string) (ref : string) : Request :=
  mkRequest ("https://api.github.com/repos/" ++ org m ++ "/" ++ repo m
               ++ "/contents" ++ buildPath segs ++ "?ref=" ++ ref)%string
    (Some gitHubHeaders).

Module Fixture.

(** A file as the contents API gives it, with and without an encoding. *)
Definition encodedFile : Value :=
  VObj [("name", VStr "mod.ts"); ("type", VStr "file");
        ("encoding", VStr "base64"); ("content", VStr "ZXhwb3J0IHt9Ow==");
        ("download_url", VStr "https://raw.example/mod.ts")].

Definition plainFile : Value :=
  VObj [("name", VStr "LICENSE"); ("type", VStr "file");
        ("content", VStr "MIT");
        ("download_url", VStr "https://raw.example/LICENSE")].

(** A decoder that marks what it decoded. *)
Definition decode (raw enc : Value) : Exc Value :=
  match raw, enc with
  | VStr r, VStr e => inr (VStr ("decoded(" ++ e ++ "):" ++ r))
  | _, _ => inl TypeError
  end.

(** A listing without a README. *)
Definition bare : list Value :=
  [Sample.entry "mod.ts" "file"; Sample.entry "http" "dir"].

(** A listing whose README is written in capitals. *)
Definition shouting : list Value :=
  [Sample.entry "zlib" "dir"; Sample.entry "ReadMe.MD" "file"].

Definition gitlabRefs : Reply :=
  Sample.jsonReply true
    (VObj [("Branches", VArr [VStr "master"]); ("Tags", VArr [VStr "v1"; VStr "v2"])]).

End Fixture.

(** The computation adds at most [n] requests to the log. *)
Definition at_most {A : Type} (n : nat) (c : M A) : Prop :=
  forall w,
    exists more,
      requests (snd (c w)) = requests w ++ more /\ List.length more <= n.

(** * Properties *)

(** ** The model on the fixtures of the specification *)

Example transformBranchtags_github :
  transformBranchtags
    (VArr [VObj [("name", VStr "main")]; VObj [("name", VStr "v1")]]) "GitHub" =
  inr [VStr "main"; VStr "v1"].
Proof. reflexivity. Qed.

Example transformBranchtags_gitlab :
  transformBranchtags
    (VObj [("Branches", VArr [VStr "main"]); ("Tags", VArr [VStr "v1"; VStr "v2"])])
    "GitLab" =
  inr [VStr "main"; VStr "v1"; VStr "v2"].
Proof. reflexivity. Qed.

Example transformBranchtags_other :
  transformBranchtags (VArr []) "Bitbucket" = inl (Error "invalid module type").
Proof. reflexivity. Qed.

Example transformBranchtags_not_an_array :
  transformBranchtags (VObj [("message", VStr "Not Found")]) "GitHub" = inl TypeError.
Proof. reflexivity. Qed.

Example buildPath_nested : buildPath ["foo"; "a"; "b"]%string = "/a/b"%string.
Proof. reflexivity. Qed.

Example buildPath_root : buildPath ["foo"%string] = "/"%string.
Proof. reflexivity. Qed.

Example getContentType_js : getContentType "x.js" = inr "application/javascript"%string.
Proof. reflexivity. Qed.

Example getContentType_ts : getContentType "x.ts" = inr "application/typescript"%string.
Proof. reflexivity. Qed.

Example getContentType_md : getContentType "x.md" = inr "text/plain"%string.
Proof. reflexivity. Qed.

Example getContentType_last_dot :
  getContentType "jquery.min.js" = inr "application/javascript"%string.
Proof. reflexivity. Qed.

Example getContentType_no_dot : getContentType "Makefile" = inl TypeError.
Proof. reflexivity. Qed.

Example isImageFromName_png : isImageFromName "a.png" = true.
Proof. reflexivity. Qed.

Example isImageFromName_upper : isImageFromName "a.PNG" = false.
Proof. reflexivity. Qed.

Example isImageFromName_txt : isImageFromName "a.txt" = false.
Proof. reflexivity. Qed.

Example parseSegment0_tagged :
  parseSegment0 ["std@v0.50.0"; "http"; "server.ts"]%string =
  inr ("std"%string, VStr "v0.50.0").
Proof. reflexivity. Qed.

Example parseSegment0_plain :
  parseSegment0 ["oak_middleware-2"%string] = inr ("oak_middleware-2"%string, VNull).
Proof. reflexivity. Qed.

Example toString_array :
  Js.toString (VArr [VStr "a"; VNull; VArr [VNum false "1"; VBool true]]) =
  inr "a,,1,true"%string.
Proof. reflexivity. Qed.

Example toString_object :
  Js.toString (VObj [("name"%string, VStr "x")]) = inr "[object Object]"%string.
Proof. reflexivity. Qed.

Example toString_own_key :
  Js.toString (VObj [("toString"%string, VStr "x")]) = inl TypeError.
Proof. reflexivity. Qed.

(** A default branch that has no string form stops the run at the tree
    URL, before the tree is requested. *)
Example default_branch_without_text :
  Sample.run lexicalCompare ["std"%string] true
    [Sample.jsonReply true
       (VObj [("default_branch"%string, VObj [("toString"%string, VNull)])]);
     Sample.notFound] =
  (inl TypeError,
   mkWorld [Sample.notFound]
     [mkRequest "https://api.github.com/repos/denoland/deno_std"
        (Some Sample.gitHubHeaders)]).
Proof. reflexivity. Qed.


(** ** Strings *)

Lemma append_nil_r (s : string) : (s ++ "")%string = s.
Proof. induction s as [|c s IH]; simpl; [reflexivity | now rewrite IH]. Qed.

Lemma append_assoc (a b c : string) :
  ((a ++ b) ++ c)%string = (a ++ (b ++ c))%string.
Proof. induction a as [|x a IH]; simpl; [reflexivity | now rewrite IH]. Qed.

Lemma substring_whole (s : string) : substring 0 (String.length s) s = s.
Proof. induction s as [|c s IH]; simpl; [reflexivity | now rewrite IH]. Qed.

Lemma all_chars_append p (a b : string) :
  all_chars p (a ++ b) = (all_chars p a && all_chars p b)%bool.
Proof.
  induction a as [|c a IH]; simpl; [reflexivity|].
  now rewrite IH, andb_assoc.
Qed.

Lemma take_drop_while p (s : string) :
  (take_while p s ++ drop_while p s)%string = s.
Proof.
  induction s as [|c s IH]; simpl; [reflexivity|].
  destruct (p c); simpl; [now rewrite IH | reflexivity].
Qed.

Lemma drop_while_length p (s : string) :
  String.length (drop_while p s) <= String.length s.
Proof.
  induction s as [|c s IH]; simpl; [lia|].
  destruct (p c); simpl; lia.
Qed.

Lemma ends_in_cons p c (s : string) : ends_in p s -> ends_in p (String c s).
Proof.
  intros (u & d & -> & Hd). exists (String c u), d. split; [reflexivity | exact Hd].
Qed.

Lemma ends_in_single p c : p c = true -> ends_in p (String c "").
Proof. intros H. exists ""%string, c. split; [reflexivity | exact H]. Qed.

Lemma ends_in_inv p c (s : string) :
  ends_in p (String c s) -> (s = ""%string /\ p c = true) \/ ends_in p s.
Proof.
  intros (u & d & E & Hd). destruct u as [|x u]; simpl in E.
  - injection E as -> <-. now left.
  - injection E as -> ->. right. now exists u, d.
Qed.

Lemma ends_in_empty p : ~ ends_in p "".
Proof. intros (u & d & E & _). destruct u; discriminate. Qed.

Lemma ends_in_append p (a b : string) : ends_in p b -> ends_in p (a ++ b).
Proof.
  intros H. induction a as [|c a IH]; simpl; [exact H | now apply ends_in_cons].
Qed.

Lemma all_chars_ends_in p (s : string) :
  s <> ""%string -> all_chars p s = true -> ends_in p s.
Proof.
  induction s as [|c s IH]; intros Hne Hall; [congruence|].
  simpl in Hall. apply andb_true_iff in Hall as [Hc Hs].
  destruct s as [|d s].
  - now apply ends_in_single.
  - apply ends_in_cons, IH; [discriminate | exact Hs].
Qed.

(** ** The matcher *)

Lemma consumed_all (s : string) : Regex.consumed s "" = s.
Proof.
  unfold Regex.consumed. simpl. rewrite Nat.sub_0_r. apply substring_whole.
Qed.

Lemma consumed_drop_while p (s : string) :
  Regex.consumed s (drop_while p s) = take_while p s.
Proof.
  unfold Regex.consumed.
  induction s as [|c s IH]; [reflexivity|].
  cbn [drop_while take_while]. destruct (p c) eqn:Hc.
  - pose proof (drop_while_length p s) as Hl.
    cbn [String.length].
    replace (S (String.length s) - String.length (drop_while p s))
      with (S (String.length s - String.length (drop_while p s))) by lia.
    cbn [substring]. now rewrite IH.
  - now rewrite Nat.sub_diag.
Qed.

Section Plus.
Context {A : Type}.
Variable p : ascii -> bool.

(** A [p+] followed by a continuation that only accepts the end of the
    input succeeds exactly on the non-empty strings over [p]. *)
Lemma plus_to_end (f : string -> option A) (s : string) :
  (forall t, t <> ""%string -> f t = None) ->
  Regex.plus p s f =
    if (negb (String.eqb s "") && all_chars p s)%bool then f ""%string else None.
Proof.
  intros Hf. induction s as [|c s IH]; simpl; [reflexivity|].
  destruct (p c); simpl; [|reflexivity].
  rewrite IH. destruct s as [|d s]; simpl; [reflexivity|].
  destruct (p d && all_chars p s)%bool; simpl.
  - destruct (f ""%string); [reflexivity|]. apply Hf. discriminate.
  - apply Hf. discriminate.
Qed.

(** [p+] fails when the input does not start with a character of [p]. *)
Lemma plus_no_head (k : string -> option A) (s : string) :
  take_while p s = ""%string -> Regex.plus p s k = None.
Proof.
  destruct s as [|c s]; simpl; [reflexivity|].
  destruct (p c); [discriminate | reflexivity].
Qed.

(** Greedy: when the continuation accepts what follows the longest run,
    that is the match. *)
Lemma plus_longest (k : string -> option A) (s : string) (r : A) :
  take_while p s <> ""%string ->
  k (drop_while p s) = Some r ->
  Regex.plus p s k = Some r.
Proof.
  induction s as [|c s IH]; simpl; [congruence|].
  destruct (p c) eqn:Hc; [|congruence]. intros _ Hk.
  destruct (take_while p s) eqn:Ht.
  - rewrite (plus_no_head k s Ht).
    assert (drop_while p s = s) as E.
    { pose proof (take_drop_while p s) as H. now rewrite Ht in H. }
    now rewrite <- E.
  - rewrite IH; [reflexivity | discriminate | exact Hk].
Qed.
End Plus.

(** ** The extension pattern *)

(** What [\.(.+)$] accepts right after the leading [.+]. *)
Lemma extension_tail (s : string) :
  Regex.run
    (Regex.Seq (Regex.Chr ".")
       (Regex.Seq (Regex.Group 1 (Regex.Plus Regex.dot)) Regex.Eos))
    s Regex.no_captures (fun _ c => Some c) =
  match s with
  | String b e =>
      if (Ascii.eqb "." b && negb (String.eqb e "") && all_chars Regex.dot e)%bool
      then Some (Regex.set_capture 1 e Regex.no_captures)
      else None
  | EmptyString => None
  end.
Proof.
  destruct s as [|b e]; [reflexivity|].
  cbn [Regex.run]. destruct (Ascii.eqb "." b); [|reflexivity].
  rewrite plus_to_end.
  - cbn [andb]. destruct (negb (String.eqb e "") && all_chars Regex.dot e)%bool;
      [|reflexivity].
    now rewrite consumed_all.
  - intros t Ht. destruct t; [congruence | reflexivity].
Qed.

Lemma match_extension_cons (c : ascii) (s : string) :
  match_extension (String c s) =
    if Regex.dot c then
      match match_extension s with
      | Some r => Some r
      | None =>
          match s with
          | String b e =>
              if (Ascii.eqb "." b && negb (String.eqb e "")
                  && all_chars Regex.dot e)%bool
              then Some (Regex.set_capture 1 e Regex.no_captures)
              else None
          | EmptyString => None
          end
      end
    else None.
Proof.
  unfold match_extension, re_extension.
  cbn [Regex.run Regex.plus].
  destruct (Regex.dot c); [|reflexivity].
  now rewrite <- extension_tail.
Qed.

Lemma match_extension_nil : match_extension "" = None.
Proof. reflexivity. Qed.

(** A match runs to the end of the input, so the input has no line
    terminator; the captured extension follows a dot that follows a
    character. *)
Lemma match_extension_sound (s : string) (c : Regex.captures) :
  match_extension s = Some c ->
  all_chars Regex.dot s = true /\
  exists stem ext,
    s = (stem ++ "." ++ ext)%string /\ ends_in Regex.dot stem /\
    ext <> ""%string /\ all_chars Regex.dot ext = true /\ c 1 = Some ext.
Proof.
  revert c. induction s as [|a s IH]; intros c H; [discriminate|].
  rewrite match_extension_cons in H.
  destruct (Regex.dot a) eqn:Ha; [|discriminate].
  destruct (match_extension s) as [r|] eqn:Hs.
  - injection H as <-. destruct (IH r eq_refl) as (Hall & stem & ext & E & Hstem & Hne & Hext & Hc).
    split; [simpl; now rewrite Ha, Hall|].
    exists (String a stem), ext. subst s. repeat split; auto using ends_in_cons.
  - destruct s as [|b e]; [discriminate|].
    destruct (Ascii.eqb "." b) eqn:Hb; [|discriminate].
    apply Ascii.eqb_eq in Hb. subst b.
    destruct (String.eqb e "") eqn:He; [discriminate|].
    destruct (all_chars Regex.dot e) eqn:Hall; [|discriminate].
    injection H as <-. split; [simpl; now rewrite Ha, Hall|].
    exists (String a ""), e. repeat split; auto using ends_in_single.
    intros ->. discriminate.
Qed.

(** A name in one piece (no line terminator) that has a character, a dot
    and a non-empty rest is matched at its start. *)
Lemma match_extension_complete (stem ext : string) :
  stem <> ""%string -> all_chars Regex.dot stem = true ->
  ext <> ""%string -> all_chars Regex.dot ext = true ->
  match_extension (stem ++ "." ++ ext) <> None.
Proof.
  intros Hne Hstem Hext Hall.
  change ("." ++ ext)%string with (String "." ext).
  induction stem as [|a stem IH]; [congruence|].
  simpl in Hstem. apply andb_true_iff in Hstem as [Ha Hstem].
  cbn [append]. rewrite match_extension_cons, Ha.
  destruct stem as [|b stem].
  - cbn [append]. destruct (match_extension (String "." ext)); [easy|].
    cbn [Ascii.eqb Bool.eqb andb]. rewrite Hall.
    destruct ext; [congruence | easy].
  - destruct (match_extension (String b stem ++ String "." ext)) eqn:E; [easy|].
    exfalso. apply IH; [discriminate | exact Hstem | reflexivity].
Qed.

(** Without a dot nothing matches. *)
Lemma match_extension_no_dot (s : string) :
  has_char "." s = false -> match_extension s = None.
Proof.
  induction s as [|a s IH]; intros H; [reflexivity|].
  cbn [has_char] in H. apply orb_false_iff in H as [Ha Hs].
  rewrite match_extension_cons, (IH Hs).
  destruct (Regex.dot a); [|reflexivity].
  destruct s as [|b e]; [reflexivity|].
  cbn [has_char] in Hs. apply orb_false_iff in Hs as [Hb _]. now rewrite Hb.
Qed.

(** Greedy: an extension without a dot of its own is the captured one. *)
Lemma match_extension_plain (stem ext : string) :
  stem <> ""%string -> all_chars Regex.dot stem = true ->
  ext <> ""%string -> all_chars Regex.dot ext = true ->
  has_char "." ext = false ->
  match_extension (stem ++ "." ++ ext) =
    Some (Regex.set_capture 1 ext Regex.no_captures).
Proof.
  intros Hne Hstem Hext Hall Hdot.
  change ("." ++ ext)%string with (String "." ext).
  induction stem as [|a stem IH]; [congruence|].
  simpl in Hstem. apply andb_true_iff in Hstem as [Ha Hstem].
  cbn [append]. rewrite match_extension_cons, Ha.
  destruct stem as [|b stem].
  - cbn [append].
    assert (match_extension (String "." ext) = None) as ->.
    { rewrite match_extension_cons, (match_extension_no_dot ext Hdot).
      change (Regex.dot ".") with true. cbn iota.
      destruct ext as [|x e]; [reflexivity|].
      cbn [has_char] in Hdot. apply orb_false_iff in Hdot as [Hx _]. now rewrite Hx. }
    cbn [Ascii.eqb Bool.eqb andb]. rewrite Hall.
    destruct ext; [congruence | reflexivity].
  - rewrite IH; [reflexivity | discriminate | exact Hstem].
Qed.

Lemma exec_unfold (r : Regex.regex) (s : string) :
  Regex.exec r s =
    match Regex.run r s Regex.no_captures (fun _ c => Some c) with
    | Some c => Some c
    | None =>
        match s with
        | EmptyString => None
        | String _ s' => Regex.exec r s'
        end
    end.
Proof. destruct s; reflexivity. Qed.

Ltac split_attempt H :=
  rewrite exec_unfold;
  match goal with
  | |- context [Regex.run re_extension ?s Regex.no_captures ?k] =>
      change (Regex.run re_extension s Regex.no_captures k) with (match_extension s);
      destruct (match_extension s) eqn:H
  end.

Lemma exec_extension_sound (s : string) (c : Regex.captures) :
  Regex.exec re_extension s = Some c ->
  exists stem ext,
    s = (stem ++ "." ++ ext)%string /\ ends_in Regex.dot stem /\
    ext <> ""%string /\ all_chars Regex.dot ext = true /\ c 1 = Some ext.
Proof.
  induction s as [|a s IH]; [discriminate|].
  split_attempt Hm.
  - intros [= <-]. now apply match_extension_sound in Hm.
  - intros H. destruct (IH H) as (stem & ext & -> & Hstem & Hrest).
    exists (String a stem), ext. split; [reflexivity|].
    split; [now apply ends_in_cons | exact Hrest].
Qed.

Lemma exec_extension_complete (stem ext : string) :
  ends_in Regex.dot stem -> ext <> ""%string -> all_chars Regex.dot ext = true ->
  Regex.exec re_extension (stem ++ "." ++ ext) <> None.
Proof.
  intros Hstem Hext Hall.
  induction stem as [|a stem IH]; [now apply ends_in_empty in Hstem|].
  cbn [append]. split_attempt Hm; [easy|].
  destruct (ends_in_inv _ _ _ Hstem) as [[-> Ha] | Hs].
  - exfalso. apply (match_extension_complete (String a "") ext); auto.
    + discriminate.
    + simpl. now rewrite Ha.
  - now apply IH.
Qed.

Lemma exec_extension_plain (stem ext : string) :
  ends_in Regex.dot stem -> ext <> ""%string -> all_chars Regex.dot ext = true ->
  has_char "." ext = false ->
  Regex.exec re_extension (stem ++ "." ++ ext) =
    Some (Regex.set_capture 1 ext Regex.no_captures).
Proof.
  intros Hstem Hext Hall Hdot.
  induction stem as [|a stem IH]; [now apply ends_in_empty in Hstem|].
  destruct (all_chars Regex.dot (String a stem)) eqn:Hs.
  - rewrite exec_unfold. fold (match_extension (String a stem ++ "." ++ ext)).
    rewrite match_extension_plain; auto. discriminate.
  - split_attempt Hm.
    + apply match_extension_sound in Hm as [Hm _].
      rewrite all_chars_append in Hm. apply andb_true_iff in Hm as [Hm _]. congruence.
    + destruct (ends_in_inv _ _ _ Hstem) as [[-> Ha] | Hs'].
      * simpl in Hs. rewrite Ha in Hs. discriminate.
      * now apply IH.
Qed.

Lemma getContentType_cases (name0 : string) :
  getContentType name0 = inl TypeError /\ Regex.exec re_extension name0 = None \/
  exists c,
    Regex.exec re_extension name0 = Some c /\
    ((c 1 = Some "js"%string /\ getContentType name0 = inr "application/javascript"%string) \/
     (c 1 = Some "ts"%string /\ getContentType name0 = inr "application/typescript"%string) \/
     (c 1 <> Some "js"%string /\ c 1 <> Some "ts"%string /\
      getContentType name0 = inr "text/plain"%string)).
Proof.
  unfold getContentType.
  destruct (Regex.exec re_extension name0) as [c|]; [right | now left].
  exists c. split; [reflexivity|].
  destruct (c 1) as [e|]; [|right; right; repeat split; discriminate].
  destruct (String.eqb e "js") eqn:Hjs.
  - apply String.eqb_eq in Hjs. subst e. now left.
  - destruct (String.eqb e "ts") eqn:Hts.
    + apply String.eqb_eq in Hts. subst e. right. now left.
    + apply String.eqb_neq in Hjs, Hts. right; right.
      repeat split; congruence.
Qed.

(** C2: the classifier returns the JavaScript type exactly for the names
    [stem.js], the TypeScript type exactly for the names [stem.ts] (the stem
    ending in a character other than a line terminator), plain text for
    every other name that has an extension, and throws exactly for the names
    that have none: a dot counts only with a character before it and a
    non-empty text without line terminator after it. *)
Theorem getContentType_spec (name0 : string) :
  (getContentType name0 = inl TypeError <-> ~ has_extension name0) /\
  (getContentType name0 = inr "application/javascript"%string <->
     exists stem, ends_in Regex.dot stem /\ name0 = (stem ++ ".js")%string) /\
  (getContentType name0 = inr "application/typescript"%string <->
     exists stem, ends_in Regex.dot stem /\ name0 = (stem ++ ".ts")%string) /\
  (has_extension name0 ->
     getContentType name0 <> inr "application/javascript"%string ->
     getContentType name0 <> inr "application/typescript"%string ->
     getContentType name0 = inr "text/plain"%string).
Proof.
  assert (forall e : string, (e = "js" \/ e = "ts")%string ->
            forall stem, ends_in Regex.dot stem ->
            Regex.exec re_extension (stem ++ "." ++ e) =
              Some (Regex.set_capture 1 e Regex.no_captures)) as Hplain.
  { intros e He stem Hstem. apply exec_extension_plain; auto;
      destruct He as [-> | ->]; (discriminate || reflexivity). }
  assert (forall c e, Regex.exec re_extension name0 = Some c -> c 1 = Some e ->
            exists stem, ends_in Regex.dot stem /\ name0 = (stem ++ "." ++ e)%string)
    as Hsound.
  { intros c e Hc He.
    destruct (exec_extension_sound _ _ Hc) as (stem & ext & -> & Hstem & _ & _ & Hx).
    assert (ext = e) as -> by congruence. now exists stem. }
  destruct (getContentType_cases name0)
    as [[Hthrow Hnone] | (c & Hc & [[He Hr] | [[He Hr] | (Hjs & Hts & Hr)]])].
  - (* no match *)
    assert (~ has_extension name0) as Hno.
    { intros (stem & ext & -> & Hstem & Hext & Hall).
      now apply (exec_extension_complete stem ext). }
    split; [tauto|]. rewrite Hthrow.
    split; [|split].
    + split; [discriminate|]. intros (stem & Hstem & ->).
      rewrite (Hplain "js"%string) in Hnone; auto. discriminate.
    + split; [discriminate|]. intros (stem & Hstem & ->).
      rewrite (Hplain "ts"%string) in Hnone; auto. discriminate.
    + tauto.
  - (* js *)
    destruct (Hsound _ _ Hc He) as (stem & Hstem & ->).
    rewrite Hr. split; [|split; [|split]].
    + split; [discriminate|]. intros Hno. exfalso. apply Hno.
      exists stem, "js"%string. repeat split; auto. discriminate.
    + split; [|reflexivity]. intros _. now exists stem.
    + split; [discriminate|]. intros (stem' & Hstem' & E).
      change (stem' ++ ".ts")%string with (stem' ++ "." ++ "ts")%string in E.
      rewrite E, (Hplain "ts"%string) in Hc; auto.
      injection Hc as <-. discriminate.
    + congruence.
  - (* ts *)
    destruct (Hsound _ _ Hc He) as (stem & Hstem & ->).
    rewrite Hr. split; [|split; [|split]].
    + split; [discriminate|]. intros Hno. exfalso. apply Hno.
      exists stem, "ts"%string. repeat split; auto. discriminate.
    + split; [discriminate|]. intros (stem' & Hstem' & E).
      change (stem' ++ ".js")%string with (stem' ++ "." ++ "js")%string in E.
      rewrite E, (Hplain "js"%string) in Hc; auto.
      injection Hc as <-. discriminate.
    + split; [|reflexivity]. intros _. now exists stem.
    + congruence.
  - (* another extension *)
    rewrite Hr. split; [|split; [|split]].
    + split; [discriminate|]. intros Hno. exfalso. apply Hno.
      destruct (exec_extension_sound _ _ Hc) as (stem & ext & E & Hrest).
      exists stem, ext. tauto.
    + split; [discriminate|]. intros (stem & Hstem & ->).
      change (stem ++ ".js")%string with (stem ++ "." ++ "js")%string in Hc.
      rewrite (Hplain "js"%string) in Hc; auto.
      injection Hc as <-. exfalso. now apply Hjs.
    + split; [discriminate|]. intros (stem & Hstem & ->).
      change (stem ++ ".ts")%string with (stem ++ "." ++ "ts")%string in Hc.
      rewrite (Hplain "ts"%string) in Hc; auto.
      injection Hc as <-. exfalso. now apply Hts.
    + reflexivity.
Qed.

(** C2, as stated, fails on a dot file: [".js"] contains a dot, and the
    classifier throws on it all the same; so does ["notes."], whose only
    dot is its last character. *)
Lemma getContentType_throws_with_dot :
  has_char "." ".js" = true /\ getContentType ".js" = inl TypeError /\
  has_char "." "notes." = true /\ getContentType "notes." = inl TypeError /\
  ~ (forall name0, getContentType name0 = inl TypeError <-> has_char "." name0 = false).
Proof.
  repeat split; try reflexivity.
  intros H. specialize (H ".js"%string). destruct H as [H _].
  specialize (H eq_refl). discriminate.
Qed.

Lemma getContentType_spec_witness :
  getContentType "README.md" = inr "text/plain"%string /\
  getContentType "mod.ts" = inr "application/typescript"%string.
Proof.
  split.
  - refine (proj2 (proj2 (proj2 (getContentType_spec "README.md"))) _ _ _);
      [|discriminate|discriminate].
    exists "README"%string, "md"%string. repeat split; try discriminate.
    now apply all_chars_ends_in.
  - refine (proj2 (proj1 (proj2 (proj2 (getContentType_spec "mod.ts")))) _).
    exists "mod"%string. split; [|reflexivity].
    now apply all_chars_ends_in.
Defined.

(** ** The segment-0 pattern *)

(** [p+] followed by a continuation that accepts what follows the longest
    run behaves like that continuation. *)
Lemma plus_total {A : Type} p (k : string -> option A) (s : string) :
  take_while p s <> ""%string -> k (drop_while p s) <> None ->
  Regex.plus p s k = k (drop_while p s).
Proof.
  intros Hne Hk. destruct (k (drop_while p s)) as [r|] eqn:E; [|congruence].
  now apply plus_longest.
Qed.

Lemma match_segment0_no_head (s : string) :
  take_while ident_char s = ""%string -> match_segment0 s = None.
Proof.
  intros H. unfold match_segment0, re_segment0. cbn [Regex.run].
  now apply plus_no_head.
Qed.

(** At a position that starts with an identifier character the pattern
    matches: group 1 is the longest run of identifier characters and group
    2 what follows an [@] right after it, up to the first line terminator. *)
Lemma match_segment0_head (s : string) :
  take_while ident_char s <> ""%string ->
  exists c,
    match_segment0 s = Some c /\
    c 1 = Some (take_while ident_char s) /\
    c 2 = match drop_while ident_char s with
          | String b rest =>
              if Ascii.eqb "@" b then
                match take_while Regex.dot rest with
                | EmptyString => None
                | t => Some t
                end
              else None
          | EmptyString => None
          end.
Proof.
  intros Hne. unfold match_segment0, re_segment0. cbn [Regex.run].
  rewrite plus_total; [| exact Hne |].
  - rewrite consumed_drop_while.
    destruct (drop_while ident_char s) as [|b rest]; [eauto|].
    destruct (Ascii.eqb "@" b); [|eauto].
    destruct (take_while Regex.dot rest) as [|x t] eqn:Ht.
    + rewrite plus_no_head by exact Ht. eauto.
    + rewrite plus_total; rewrite ?Ht; try discriminate.
      rewrite consumed_drop_while, Ht. eauto.
  - destruct (drop_while ident_char s) as [|b rest]; [discriminate|].
    destruct (Ascii.eqb "@" b); [|discriminate].
    destruct (Regex.plus _ _ _); discriminate.
Qed.

Lemma take_while_ident_skip (a : ascii) (s : string) :
  not_ident_char a = true -> take_while ident_char (String a s) = ""%string.
Proof.
  unfold not_ident_char. intros H. cbn [take_while].
  now destruct (ident_char a).
Qed.

Lemma take_while_ident_keep (a : ascii) (s : string) :
  not_ident_char a = false -> take_while ident_char (String a s) <> ""%string.
Proof.
  unfold not_ident_char. intros H. cbn [take_while].
  now destruct (ident_char a).
Qed.

(** [exec] skips the characters outside the class and matches at the first
    identifier character. *)
Lemma exec_segment0 (s : string) :
  Regex.exec re_segment0 s =
    match drop_while not_ident_char s with
    | EmptyString => None
    | s' => match_segment0 s'
    end.
Proof.
  induction s as [|a s IH]; [reflexivity|].
  rewrite exec_unfold. fold (match_segment0 (String a s)).
  cbn [drop_while]. destruct (not_ident_char a) eqn:Ha.
  - now rewrite match_segment0_no_head by (now apply take_while_ident_skip).
  - destruct (match_segment0_head (String a s)) as (c & -> & _).
    + now apply take_while_ident_keep.
    + reflexivity.
Qed.

Lemma drop_while_nil_iff p (s : string) :
  drop_while p s = ""%string <-> all_chars p s = true.
Proof.
  induction s as [|a s IH]; cbn [drop_while all_chars]; [tauto|].
  destruct (p a); cbn [andb]; [exact IH|]. split; discriminate.
Qed.

Lemma drop_while_head p (s : string) (a : ascii) (t : string) :
  drop_while p s = String a t -> p a = false.
Proof.
  induction s as [|b s IH]; cbn [drop_while]; [discriminate|].
  destruct (p b) eqn:Hb; [exact IH|]. now intros [= <- _].
Qed.

(** Group 1 takes part in every match. *)
Lemma exec_segment0_group1 (s : string) (c : Regex.captures) :
  Regex.exec re_segment0 s = Some c -> c 1 <> None.
Proof.
  rewrite exec_segment0.
  destruct (drop_while not_ident_char s) as [|a t] eqn:Hd; [discriminate|].
  pose proof (drop_while_head _ _ _ _ Hd) as Ha.
  destruct (match_segment0_head (String a t)) as (c' & -> & H1 & _).
  { now apply take_while_ident_keep. }
  intros [= <-]. now rewrite H1.
Qed.

Lemma parseSegment0_found (segs : list string) :
  all_chars not_ident_char (segment0 segs) = false ->
  parseSegment0 segs =
    inr (leftmost_identifier (segment0 segs), branchtag_after (segment0 segs)).
Proof.
  intros H. unfold parseSegment0, leftmost_identifier, branchtag_after.
  rewrite exec_segment0.
  destruct (drop_while not_ident_char (segment0 segs)) as [|a t] eqn:Hd.
  - apply drop_while_nil_iff in Hd. congruence.
  - pose proof (drop_while_head _ _ _ _ Hd) as Ha.
    destruct (match_segment0_head (String a t)) as (c & -> & -> & ->).
    { now apply take_while_ident_keep. }
    destruct (drop_while ident_char (String a t)) as [|b rest]; [reflexivity|].
    destruct (Ascii.eqb "@" b); [|reflexivity].
    now destruct (take_while Regex.dot rest).
Qed.

Lemma parseSegment0_none (segs : list string) :
  all_chars not_ident_char (segment0 segs) = true ->
  parseSegment0 segs = inl TypeError.
Proof.
  intros H. unfold parseSegment0. rewrite exec_segment0.
  apply drop_while_nil_iff in H. now rewrite H.
Qed.




(** ** The URL builders *)

Lemma url_builders_lemma (m : ModuleReference) :
  (type m = "GitHub"%string ->
     createRepoUrl m = inr ("https://github.com/" ++ org m ++ "/" ++ repo m)%string /\
     createBranchtagUrls m =
       inr [ ("https://api.github.com/repos/" ++ org m ++ "/" ++ repo m ++ "/branches")%string;
             ("https://api.github.com/repos/" ++ org m ++ "/" ++ repo m ++ "/tags")%string ]) /\
  (type m = "GitLab"%string ->
     createRepoUrl m = inr ("https://gitlab.com/" ++ org m ++ "/" ++ repo m)%string /\
     createBranchtagUrls m =
       inr [ ("https://gitlab.com/" ++ org m ++ "/" ++ repo m ++ "/refs")%string ]) /\
  (type m <> "GitHub"%string -> type m <> "GitLab"%string ->
     createRepoUrl m = inl (Error "invalid module type") /\
     createBranchtagUrls m = inl (Error "invalid module type")).
Proof.
  unfold createRepoUrl, createBranchtagUrls.
  split; [|split].
  - intros ->. now split.
  - intros ->. now split.
  - intros H1 H2. apply String.eqb_neq in H1, H2. now rewrite H1, H2.
Qed.

(** C8: the two builders are functions of the reference alone (they take no
    world and give the same result for the same type, organisation and
    repository): for GitHub the repository page and the two API endpoints,
    branches then tags; for GitLab the repository page and the one refs
    endpoint; for any other type both throw the invalid-provider error. *)
Theorem url_builders_spec (m : ModuleReference) :
  (type m = "GitHub"%string ->
     createRepoUrl m = inr ("https://github.com/" ++ org m ++ "/" ++ repo m)%string /\
     createBranchtagUrls m =
       inr [ ("https://api.github.com/repos/" ++ org m ++ "/" ++ repo m ++ "/branches")%string;
             ("https://api.github.com/repos/" ++ org m ++ "/" ++ repo m ++ "/tags")%string ]) /\
  (type m = "GitLab"%string ->
     createRepoUrl m = inr ("https://gitlab.com/" ++ org m ++ "/" ++ repo m)%string /\
     createBranchtagUrls m =
       inr [ ("https://gitlab.com/" ++ org m ++ "/" ++ repo m ++ "/refs")%string ]) /\
  (type m <> "GitHub"%string -> type m <> "GitLab"%string ->
     createRepoUrl m = inl (Error "invalid module type") /\
     createBranchtagUrls m = inl (Error "invalid module type")) /\
  (forall m', type m' = type m -> org m' = org m -> repo m' = repo m ->
     createRepoUrl m' = createRepoUrl m /\
     createBranchtagUrls m' = createBranchtagUrls m).
Proof.
  destruct (url_builders_lemma m) as (H1 & H2 & H3).
  split; [exact H1|]. split; [exact H2|]. split; [exact H3|].
  intros m' Ht Ho Hr. unfold createRepoUrl, createBranchtagUrls.
  now rewrite Ht, Ho, Hr.
Qed.

Lemma url_builders_spec_witness :
  createRepoUrl (mkRef "GitHub" "denoland" "deno") =
    inr "https://github.com/denoland/deno"%string /\
  createBranchtagUrls (mkRef "GitLab" "gnome" "gimp") =
    inr [ "https://gitlab.com/gnome/gimp/refs"%string ] /\
  createRepoUrl (mkRef "Bitbucket" "a" "b") = inl (Error "invalid module type").
Proof.
  split; [|split].
  - exact (proj1 (proj1 (url_builders_spec (mkRef "GitHub" "denoland" "deno")) eq_refl)).
  - exact (proj2 (proj1 (proj2 (url_builders_spec (mkRef "GitLab" "gnome" "gimp"))) eq_refl)).
  - refine (proj1 (proj1 (proj2 (proj2 (url_builders_spec (mkRef "Bitbucket" "a" "b")))) _ _));
      discriminate.
Defined.

(** ** Sequencing *)

Lemma bind_ok {A B : Type} (c : M A) (k : A -> M B) (w w1 : World) (a : A) :
  c w = (inr a, w1) -> Async.bind c k w = k a w1.
Proof. unfold Async.bind. now intros ->. Qed.

Lemma lift_ok_bind {A B : Type} (a : A) (k : A -> M B) (w : World) :
  Async.bind (Async.lift (inr a)) k w = k a w.
Proof. reflexivity. Qed.

Lemma bind_throw {A B : Type} (c : M A) (k : A -> M B) (w w1 : World) (e : exn) :
  c w = (inl e, w1) -> Async.bind c k w = (inl e, w1).
Proof. unfold Async.bind. now intros ->. Qed.

Lemma bind_inv {A B : Type} (c : M A) (k : A -> M B) (w w' : World) (b : B) :
  Async.bind c k w = (inr b, w') ->
  exists a w1, c w = (inr a, w1) /\ k a w1 = (inr b, w').
Proof.
  unfold Async.bind. destruct (c w) as [[e|a] w1]; [discriminate|]. eauto.
Qed.

Lemma lift_inv {A : Type} (c : Exc A) (w w' : World) (a : A) :
  Async.lift c w = (inr a, w') -> c = inr a /\ w' = w.
Proof. unfold Async.lift. now intros [= -> ->]. Qed.

Lemma ret_inv {A : Type} (x a : A) (w w' : World) :
  Async.ret x w = (inr a, w') -> x = a /\ w' = w.
Proof. unfold Async.ret. now intros [= -> ->]. Qed.

Lemma fetch_inv (u : string) (h : option Headers) (w w' : World) (r : Response) :
  Async.fetch u h w = (inr r, w') ->
  exists rest,
    replies w = Responded r :: rest /\
    w' = mkWorld rest (requests w ++ [mkRequest u h]).
Proof.
  unfold Async.fetch. destruct (replies w) as [|[|r0] rest]; try discriminate.
  intros [= -> <-]. eauto.
Qed.

Lemma fetch_responded (u : string) (h : option Headers) (w : World)
      (r : Response) (rest : list Reply) :
  replies w = Responded r :: rest ->
  Async.fetch u h w = (inr r, mkWorld rest (requests w ++ [mkRequest u h])).
Proof. unfold Async.fetch. now intros ->. Qed.

Lemma getJson_inv (r : Response) (w w' : World) (v : Value) :
  Async.getJson r w = (inr v, w') -> json r = Some v /\ w' = w.
Proof.
  unfold Async.getJson. destruct (json r); [|discriminate].
  now intros [= -> ->].
Qed.

(** ** The branch/tag fetcher *)

Lemma fetchRefs_all (ty : string) (h : option Headers) (urls : list string) :
  forall (rs : list Response) (outs : list (list Value)) (refs : list Value)
         (w : World) (rest : list Reply),
    List.length rs = List.length urls ->
    Forall2 (fun r o => transformed ty r = inr o) rs outs ->
    replies w = map Responded rs ++ rest ->
    fetchRefs ty h urls refs w =
      (inr (refs ++ concat outs),
       mkWorld rest (requests w ++ map (fun u => mkRequest u h) urls)).
Proof.
  induction urls as [|u urls IH]; intros rs outs refs w rest Hlen Hall Hw.
  - destruct rs; [|discriminate]. inversion Hall; subst.
    simpl in *. rewrite !app_nil_r. unfold Async.ret. destruct w; simpl in *.
    now subst.
  - destruct rs as [|r rs]; [discriminate|].
    inversion Hall as [|? o ? outs' Hr Hrest]; subst.
    cbn [fetchRefs]. simpl in Hw.
    rewrite (bind_ok _ _ _ _ _ (fetch_responded u h w r _ Hw)).
    unfold transformed in Hr. destruct (json r) as [data|] eqn:Hj; [|discriminate].
    unfold Async.bind at 1, Async.getJson. rewrite Hj. unfold Async.ret.
    unfold Async.bind at 1, Async.lift. rewrite Hr.
    rewrite (IH rs outs' (refs ++ o) _ rest); simpl in *; auto.
    now rewrite <- !app_assoc.
Qed.

(** C6: when each URL of the reference gets a response that decodes and
    that the transformer accepts, the fetcher asks the URLs in order and
    returns the transformer's outputs concatenated in that order; nothing is
    removed, so for GitHub a name that is both a branch and a tag is there
    twice. *)
Theorem fetchModuleBranchtags_concat
        (gitHubHeaders : Headers) (m : ModuleReference) (urls : list string)
        (rs : list Response) (outs : list (list Value))
        (w : World) (rest : list Reply) :
  createBranchtagUrls m = inr urls ->
  List.length rs = List.length urls ->
  Forall2 (fun r o => transformed (type m) r = inr o) rs outs ->
  replies w = map Responded rs ++ rest ->
  fetchModuleBranchtags gitHubHeaders m w =
    (inr (concat outs),
     mkWorld rest
       (requests w ++
        map (fun u => mkRequest u (requestHeaders gitHubHeaders m)) urls)) /\
  (type m = "GitHub"%string ->
     exists branches tags,
       outs = [branches; tags] /\ concat outs = branches ++ tags /\
       forall v, In v branches -> In v tags ->
         exists l1 l2 l3, concat outs = l1 ++ v :: l2 ++ v :: l3).
Proof.
  intros Hurls Hlen Hall Hw. split.
  - unfold fetchModuleBranchtags, requestHeaders.
    unfold Async.bind at 1, Async.lift. rewrite Hurls.
    now rewrite (fetchRefs_all _ _ urls rs outs [] w rest).
  - intros Hty. unfold createBranchtagUrls in Hurls. rewrite Hty in Hurls.
    simpl in Hurls. injection Hurls as <-.
    destruct rs as [|r1 [|r2 [|]]]; try discriminate.
    inversion Hall as [|? branches ? ? _ Hall']; subst.
    inversion Hall' as [|? tags ? ? _ Hall'']; subst.
    inversion Hall''; subst.
    exists branches, tags. simpl. rewrite app_nil_r.
    repeat split; auto.
    intros v Hb Ht.
    apply in_split in Hb as (b1 & b2 & ->).
    apply in_split in Ht as (t1 & t2 & ->).
    exists b1, (b2 ++ t1), t2. now rewrite <- !app_assoc.
Qed.

Lemma fetchModuleBranchtags_concat_witness :
  fetchModuleBranchtags Sample.gitHubHeaders Sample.std
    (Sample.world [Sample.branches; Sample.tags; Sample.contents]) =
  (inr [VStr "main"; VStr "v1"; VStr "v1"],
   mkWorld [Sample.contents]
     [ mkRequest "https://api.github.com/repos/denoland/deno_std/branches"
         (Some Sample.gitHubHeaders);
       mkRequest "https://api.github.com/repos/denoland/deno_std/tags"
         (Some Sample.gitHubHeaders) ]).
Proof.
  destruct (fetchModuleBranchtags_concat Sample.gitHubHeaders Sample.std
              [ "https://api.github.com/repos/denoland/deno_std/branches"%string;
                "https://api.github.com/repos/denoland/deno_std/tags"%string ]
              [ mkResponse true "" (Some (VArr [VObj [("name"%string, VStr "main")];
                                                VObj [("name"%string, VStr "v1")]]));
                mkResponse true "" (Some (VArr [VObj [("name"%string, VStr "v1")]])) ]
              [ [VStr "main"; VStr "v1"]; [VStr "v1"] ]
              (Sample.world [Sample.branches; Sample.tags; Sample.contents])
              [Sample.contents] eq_refl eq_refl
              ltac:(repeat constructor) eq_refl) as [H _].
  exact H.
Defined.

(** ** The request log and the replies *)

Lemma steady_ret {A : Type} (a : A) : steady (Async.ret a).
Proof. intros w. split; [exists [] | exists []]; simpl; now rewrite ?app_nil_r. Qed.

Lemma steady_throw {A : Type} (e : exn) : steady (@Async.throw A e).
Proof. intros w. split; [exists [] | exists []]; simpl; now rewrite ?app_nil_r. Qed.

Lemma steady_lift {A : Type} (c : Exc A) : steady (Async.lift c).
Proof. intros w. split; [exists [] | exists []]; simpl; now rewrite ?app_nil_r. Qed.

Lemma steady_getJson (r : Response) : steady (Async.getJson r).
Proof.
  unfold Async.getJson. destruct (json r); [apply steady_ret | apply steady_throw].
Qed.

Lemma steady_fetch (u : string) (h : option Headers) : steady (Async.fetch u h).
Proof.
  intros w. unfold Async.fetch.
  destruct (replies w) as [|[|r] rest] eqn:E; simpl;
    (split; [now eexists|]).
  - now exists [].
  - now exists [Rejected].
  - now exists [Responded r].
Qed.

Lemma steady_bind {A B : Type} (c : M A) (k : A -> M B) :
  steady c -> (forall a, steady (k a)) -> steady (Async.bind c k).
Proof.
  intros Hc Hk w. unfold Async.bind.
  destruct (Hc w) as [[m1 H1] [u1 U1]].
  destruct (c w) as [[e|a] w1]; simpl in *.
  - split; eauto.
  - destruct (Hk a w1) as [[m2 H2] [u2 U2]]. split.
    + exists (m1 ++ m2). now rewrite H2, H1, app_assoc.
    + exists (u1 ++ u2). now rewrite U1, U2, app_assoc.
Qed.

Create HintDb steady.

#[local] Hint Resolve steady_ret steady_throw steady_lift steady_getJson steady_fetch
  : steady.

Ltac steady :=
  repeat first
    [ solve [auto with steady nocore]
    | apply steady_bind; [|intros ?]
    | match goal with
      | |- steady (if ?b then _ else _) => destruct b
      | |- steady (match ?x with _ => _ end) => destruct x
      end ].

Lemma steady_fetchRefs ty h urls refs : steady (fetchRefs ty h urls refs).
Proof.
  revert refs. induction urls as [|u urls IH]; intros refs; cbn [fetchRefs].
  - apply steady_ret.
  - steady.
Qed.

#[local] Hint Resolve steady_fetchRefs : steady.

Lemma steady_fetchModuleBranchtags gh m : steady (fetchModuleBranchtags gh m).
Proof. unfold fetchModuleBranchtags. steady. Qed.

#[local] Hint Resolve steady_fetchModuleBranchtags : steady.

Lemma steady_resolveBranchtag gh m bt0 : steady (resolveBranchtag gh m bt0).
Proof. unfold resolveBranchtag. steady. Qed.

Lemma steady_listBranchtags gh m segs isApi : steady (listBranchtags gh m segs isApi).
Proof. unfold listBranchtags. steady. Qed.

Lemma steady_fetchTree gh m p bt : steady (fetchTree gh m p bt).
Proof. unfold fetchTree. steady. Qed.

Lemma steady_readTree lc buf m t : steady (readTree lc buf m t).
Proof. unfold readTree. steady. Qed.

#[local] Hint Resolve steady_resolveBranchtag steady_listBranchtags steady_fetchTree
  steady_readTree : steady.

Lemma bind_assoc {A B C : Type} (c : M A) (k1 : A -> M B) (k2 : B -> M C) (w : World) :
  Async.bind (Async.bind c k1) k2 w =
  Async.bind c (fun a => Async.bind (k1 a) k2) w.
Proof. unfold Async.bind. now destruct (c w) as [[e|a] w1]. Qed.

(** A run that starts with a request logs it first. *)
Lemma fetch_first {A : Type} (u : string) (h : option Headers)
      (k : Response -> M A) (w : World) :
  (forall r, steady (k r)) ->
  exists more,
    requests (snd (Async.bind (Async.fetch u h) k w)) =
      requests w ++ mkRequest u h :: more.
Proof.
  intros Hk. unfold Async.bind, Async.fetch.
  destruct (replies w) as [|[|r] rest]; simpl; try (now exists []).
  destruct (Hk r (mkWorld rest (requests w ++ [mkRequest u h]))) as [[more H] _].
  exists more. rewrite H. simpl. now rewrite <- app_assoc.
Qed.


(** ** The shape of a run *)

Section Run.
Variable fetchModule : string -> option ModuleReference.
Variable gitHubHeaders : Headers.
Variable localeCompare : string -> string -> Z.
Variable bufferToString : Value -> Value -> Exc Value.


(** What the run does when the lookup finds nothing. *)
Lemma metadata_not_found segs isApi w moduleName branchtag0 :
  parseSegment0 segs = inr (moduleName, branchtag0) ->
  fetchModule moduleName = None ->
  fetchModuleMetadata fetchModule gitHubHeaders localeCompare bufferToString
    segs isApi w = (inr (NotFound segs), w).
Proof.
  intros Hp Hm. unfold fetchModuleMetadata, Async.bind, Async.lift.
  now rewrite Hp, Hm.
Qed.

(** What the run does once the module is found. *)
Lemma metadata_found segs isApi w moduleName branchtag0 m :
  parseSegment0 segs = inr (moduleName, branchtag0) ->
  fetchModule moduleName = Some m ->
  fetchModuleMetadata fetchModule gitHubHeaders localeCompare bufferToString
    segs isApi w =
    Async.bind (Async.lift (createRepoUrl m)) (fun url0 =>
    Async.bind (resolveBranchtag gitHubHeaders m branchtag0) (fun bt =>
    Async.bind (listBranchtags gitHubHeaders m segs isApi) (fun x =>
    Async.bind (fetchTree gitHubHeaders m (buildPath segs) bt) (fun y =>
    Async.bind (readTree localeCompare bufferToString m (fst y)) (fun z =>
    Async.ret (Resolved (mkResolution (mkMeta moduleName m url0) bt (fst x) segs
                           (snd x) (buildPath segs) (fst (fst (fst z)))
                           (snd (fst (fst z))) (snd (fst z)) (snd z) (snd y)))))))) w.
Proof.
  intros Hp Hm. unfold fetchModuleMetadata.
  unfold Async.bind at 1, Async.lift at 1. rewrite Hp, Hm.
  unfold Async.bind.
  destruct (Async.lift (createRepoUrl m) w) as [[?|url0] w0]; [reflexivity|].
  destruct (resolveBranchtag _ _ _ w0) as [[?|bt] w1]; [reflexivity|].
  destruct (listBranchtags _ _ _ _ w1) as [[?|[bts crumbs]] w2]; [reflexivity|].
  destruct (fetchTree _ _ _ _ w2) as [[?|[t e]] w3]; [reflexivity|].
  destruct (readTree _ _ _ _ w3) as [[?|[[[t1 r0] c0] s0]] w4]; reflexivity.
Qed.

(** A run that returns a resolution went through every stage. *)
Lemma metadata_resolved segs isApi w r w' :
  fetchModuleMetadata fetchModule gitHubHeaders localeCompare bufferToString
    segs isApi w = (inr (Resolved r), w') ->
  exists moduleName branchtag0 m url0 bt w1 bts crumbs w2 tree0 errors0 w3
         tree1 readme0 content0 sourceUrl0,
    parseSegment0 segs = inr (moduleName, branchtag0) /\
    fetchModule moduleName = Some m /\
    createRepoUrl m = inr url0 /\
    resolveBranchtag gitHubHeaders m branchtag0 w = (inr bt, w1) /\
    listBranchtags gitHubHeaders m segs isApi w1 = (inr (bts, crumbs), w2) /\
    fetchTree gitHubHeaders m (buildPath segs) bt w2 = (inr (tree0, errors0), w3) /\
    readTree localeCompare bufferToString m tree0 w3 =
      (inr (tree1, readme0, content0, sourceUrl0), w') /\
    r = mkResolution (mkMeta moduleName m url0) bt bts segs crumbs (buildPath segs)
          tree1 readme0 content0 sourceUrl0 errors0.
Proof.
  intros H.
  destruct (parseSegment0 segs) as [e|[moduleName branchtag0]] eqn:Hp.
  { unfold fetchModuleMetadata, Async.bind, Async.lift in H.
    rewrite Hp in H. discriminate. }
  destruct (fetchModule moduleName) as [m|] eqn:Hm.
  2:{ unfold fetchModuleMetadata, Async.bind, Async.lift in H.
      rewrite Hp, Hm in H. discriminate. }
  rewrite (metadata_found _ _ _ _ _ _ Hp Hm) in H.
  apply bind_inv in H as (url0 & w0 & H0 & H). apply lift_inv in H0 as [H0 ->].
  apply bind_inv in H as (bt & w1 & H1 & H).
  apply bind_inv in H as ([bts crumbs] & w2 & H2 & H).
  apply bind_inv in H as ([tree0 errors0] & w3 & H3 & H).
  apply bind_inv in H as ([[[tree1 readme0] content0] sourceUrl0] & w4 & H4 & H).
  apply ret_inv in H as [H ->]. injection H as <-.
  exists moduleName, branchtag0, m, url0, bt, w1, bts, crumbs, w2, tree0, errors0, w3,
         tree1, readme0, content0, sourceUrl0.
  simpl. repeat split; assumption.
Qed.

(** From the tree request on. *)
Lemma metadata_from_tree segs isApi w m meta0 bt bts crumbs w2 :
  reaches_tree fetchModule gitHubHeaders segs isApi w m meta0 bt bts crumbs w2 ->
  fetchModuleMetadata fetchModule gitHubHeaders localeCompare bufferToString
    segs isApi w =
    Async.bind (fetchTree gitHubHeaders m (buildPath segs) bt) (fun y =>
    Async.bind (readTree localeCompare bufferToString m (fst y)) (fun z =>
    Async.ret (Resolved (mkResolution meta0 bt bts segs crumbs (buildPath segs)
                           (fst (fst (fst z))) (snd (fst (fst z))) (snd (fst z))
                           (snd z) (snd y))))) w2.
Proof.
  intros (moduleName & branchtag0 & url0 & w1 & Hp & Hm & Hu & -> & H1 & H2).
  rewrite (metadata_found _ _ _ _ _ _ Hp Hm).
  unfold Async.bind at 1, Async.lift at 1. rewrite Hu.
  rewrite (bind_ok _ _ _ _ _ H1), (bind_ok _ _ _ _ _ H2). reflexivity.
Qed.

End Run.

(** ** The orchestrator *)

(** C5: when the lookup finds no module for the parsed name, the result is
    the object that holds the segments and nothing else; nothing is thrown
    and no request is made. *)
Theorem module_not_found
        (fetchModule : string -> option ModuleReference) (gitHubHeaders : Headers)
        (localeCompare : string -> string -> Z)
        (bufferToString : Value -> Value -> Exc Value)
        (segs : list string) (isApi : bool) (w : World)
        (moduleName : string) (branchtag0 : Value) :
  parseSegment0 segs = inr (moduleName, branchtag0) ->
  fetchModule moduleName = None ->
  fetchModuleMetadata fetchModule gitHubHeaders localeCompare bufferToString
    segs isApi w = (inr (NotFound segs), w).
Proof.
  apply metadata_not_found.
Qed.

Lemma module_not_found_witness :
  Sample.run lexicalCompare ["left-pad@1.3.0"%string; "index.js"%string] false
    [Sample.repoInfo] =
  (inr (NotFound ["left-pad@1.3.0"%string; "index.js"%string]),
   Sample.world [Sample.repoInfo]).
Proof.
  exact (module_not_found Sample.lookup Sample.gitHubHeaders lexicalCompare
           Sample.decode ["left-pad@1.3.0"%string; "index.js"%string] false
           (Sample.world [Sample.repoInfo]) "left-pad"%string (VStr "1.3.0")
           eq_refl eq_refl).
Defined.

(** C10: with an empty segments list the parse step does not throw: the
    missing segment 0 reaches the pattern as the string ["undefined"], which
    becomes the module name, and the lookup is made with that name: the run
    depends on the registry through its answer for ["undefined"] only. *)
Theorem empty_segments
        (fetchModule : string -> option ModuleReference) (gitHubHeaders : Headers)
        (localeCompare : string -> string -> Z)
        (bufferToString : Value -> Value -> Exc Value)
        (isApi : bool) (w : World) :
  parseSegment0 [] = inr ("undefined"%string, VNull) /\
  (fetchModule "undefined"%string = None ->
     fetchModuleMetadata fetchModule gitHubHeaders localeCompare bufferToString
       [] isApi w = (inr (NotFound []), w)) /\
  (forall fetchModule' : string -> option ModuleReference,
     fetchModule' "undefined"%string = fetchModule "undefined"%string ->
     fetchModuleMetadata fetchModule' gitHubHeaders localeCompare bufferToString
       [] isApi w =
     fetchModuleMetadata fetchModule gitHubHeaders localeCompare bufferToString
       [] isApi w) /\
  (forall r w',
     fetchModuleMetadata fetchModule gitHubHeaders localeCompare bufferToString
       [] isApi w = (inr (Resolved r), w') ->
     name (meta r) = "undefined"%string /\
     fetchModule "undefined"%string = Some (ref (meta r))).
Proof.
  assert (parseSegment0 [] = inr ("undefined"%string, VNull)) as Hp by reflexivity.
  split; [exact Hp|]. split; [|split].
  - intros Hm. now apply (metadata_not_found _ _ _ _ _ _ _ _ _ Hp).
  - intros fm' E.
    destruct (fetchModule "undefined"%string) as [m|] eqn:Hm.
    + now rewrite (metadata_found fm' _ _ _ _ _ _ _ _ _ Hp E),
        (metadata_found fetchModule _ _ _ _ _ _ _ _ _ Hp Hm).
    + now rewrite (metadata_not_found fm' _ _ _ _ _ _ _ _ Hp E),
        (metadata_not_found fetchModule _ _ _ _ _ _ _ _ Hp Hm).
  - intros r w' H.
    apply metadata_resolved in H
      as (n & b & m & u & bt & w1 & bts & cr & w2 & t0 & e0 & w3 & t1 & r0 & c0 & s0
          & Hp' & Hm & _ & _ & _ & _ & _ & ->).
    rewrite Hp in Hp'. injection Hp' as <- <-. now split.
Qed.

Lemma empty_segments_witness :
  exists r w',
    fetchModuleMetadata Sample.lookupUndefined Sample.gitHubHeaders lexicalCompare
      Sample.decode [] true (Sample.world [Sample.repoInfo; Sample.contents; Sample.readmeText]) =
      (inr (Resolved r), w') /\
    name (meta r) = "undefined"%string /\
    Sample.lookupUndefined "undefined"%string = Some (ref (meta r)).
Proof.
  eexists. eexists.
  assert (fetchModuleMetadata Sample.lookupUndefined Sample.gitHubHeaders
            lexicalCompare Sample.decode [] true
            (Sample.world [Sample.repoInfo; Sample.contents; Sample.readmeText]) = _) as H
    by (vm_compute; reflexivity).
  split; [exact H|].
  exact (proj2 (proj2 (proj2 (empty_segments Sample.lookupUndefined
                                Sample.gitHubHeaders lexicalCompare Sample.decode
                                true (Sample.world [Sample.repoInfo; Sample.contents; Sample.readmeText]))))
           _ _ H).
Defined.

(** C3: with no branchtag in segment 0, a GitHub module has its branchtag
    read from the [default_branch] of the answer to the repository request,
    which is the first request of the run; a GitLab module keeps the
    branchtag [null]; a module of any other type makes the run throw the
    invalid-provider error while the repository URL is built, before the
    branchtag is looked at, so no result is returned for it. *)
Theorem branchtag_resolution
        (fetchModule : string -> option ModuleReference) (gitHubHeaders : Headers)
        (localeCompare : string -> string -> Z)
        (bufferToString : Value -> Value -> Exc Value)
        (segs : list string) (isApi : bool) (w : World)
        (moduleName : string) (m : ModuleReference) :
  parseSegment0 segs = inr (moduleName, VNull) ->
  fetchModule moduleName = Some m ->
  let out := fetchModuleMetadata fetchModule gitHubHeaders localeCompare
               bufferToString segs isApi w in
  let repoRequest :=
    mkRequest ("https://api.github.com/repos/" ++ org m ++ "/" ++ repo m)%string
      (Some gitHubHeaders) in
  (type m = "GitHub"%string ->
     (exists more, requests (snd out) = requests w ++ repoRequest :: more) /\
     (forall resp rest data,
        replies w = Responded resp :: rest -> json resp = Some data ->
        resolveBranchtag gitHubHeaders m VNull w =
          (Js.getProp data "default_branch",
           mkWorld rest (requests w ++ [repoRequest]))) /\
     (forall r,
        fst out = inr (Resolved r) ->
        exists resp rest data,
          replies w = Responded resp :: rest /\ json resp = Some data /\
          Js.getProp data "default_branch" = inr (branchtag r))) /\
  (type m = "GitLab"%string ->
     forall r, fst out = inr (Resolved r) -> branchtag r = VNull) /\
  (type m <> "GitHub"%string -> type m <> "GitLab"%string ->
     out = (inl (Error "invalid module type"), w)).
Proof.
  intros Hp Hm out repoRequest.
  assert (forall r, fst out = inr (Resolved r) ->
            exists w0 w1, resolveBranchtag gitHubHeaders m VNull w0
                          = (inr (branchtag r), w1) /\ w0 = w) as Hres.
  { intros r Hr. subst out.
    destruct (fetchModuleMetadata _ _ _ _ _ _ _) as [res w'] eqn:E.
    simpl in Hr. subst res.
    apply metadata_resolved in E
      as (n & b & m' & u & bt & w1 & bts & cr & w2 & t0 & e0 & w3 & t1 & r0 & c0 & s0
          & Hp' & Hm' & _ & H1 & _ & _ & _ & ->).
    rewrite Hp in Hp'. injection Hp' as <- <-.
    rewrite Hm in Hm'. injection Hm' as <-.
    exists w, w1. now split. }
  split; [|split].
  - intros Hty.
    assert (resolveBranchtag gitHubHeaders m VNull =
              Async.bind (Async.fetch (url repoRequest) (headers repoRequest))
                (fun resp => Async.bind (Async.getJson resp)
                   (fun data => Async.lift (Js.getProp data "default_branch"))))
      as Hstage.
    { unfold resolveBranchtag, requestHeaders. now rewrite Hty. }
    split; [|split].
    + subst out. rewrite (metadata_found _ _ _ _ _ _ _ _ _ _ Hp Hm).
      unfold createRepoUrl. rewrite Hty. simpl String.eqb. cbv iota.
      unfold Async.bind at 1, Async.lift at 1.
      rewrite Hstage, bind_assoc.
      apply fetch_first. intros resp. steady.
    + intros resp rest data Hw Hj. rewrite Hstage.
      rewrite (bind_ok _ _ _ _ _ (fetch_responded _ _ _ _ _ Hw)).
      unfold Async.bind, Async.getJson. rewrite Hj. reflexivity.
    + intros r Hr. destruct (Hres r Hr) as (w0 & w1 & H & ->).
      rewrite Hstage in H.
      apply bind_inv in H as (resp & wa & Hf & H).
      apply bind_inv in H as (data & wb & Hj & H).
      apply fetch_inv in Hf as (rest & Hw & ->).
      apply getJson_inv in Hj as [Hj ->]. apply lift_inv in H as [H _].
      now exists resp, rest, data.
  - intros Hty r Hr. destruct (Hres r Hr) as (w0 & w1 & H & ->).
    unfold resolveBranchtag in H. rewrite Hty in H. simpl in H.
    unfold Async.ret in H. now injection H as <- _.
  - intros H1 H2. subst out. rewrite (metadata_found _ _ _ _ _ _ _ _ _ _ Hp Hm).
    unfold Async.bind at 1, Async.lift at 1.
    now rewrite (proj1 (proj2 (proj2 (url_builders_lemma m)) H1 H2)).
Qed.

Lemma branchtag_resolution_witness :
  (exists more,
     requests (snd (Sample.run lexicalCompare ["std"%string] true
                      [Sample.repoInfo; Sample.contents; Sample.readmeText])) =
       [] ++ mkRequest "https://api.github.com/repos/denoland/deno_std"
               (Some Sample.gitHubHeaders) :: more) /\
  (exists r,
     fst (Sample.run lexicalCompare ["std"%string] true
            [Sample.repoInfo; Sample.contents; Sample.readmeText]) =
       inr (Resolved r) /\
     branchtag r = VStr "main") /\
  (exists r,
     fst (Sample.run lexicalCompare ["ink"%string] true []) = inr (Resolved r) /\
     branchtag r = VNull) /\
  Sample.run lexicalCompare ["aui"%string] true [] =
    (inl (Error "invalid module type"), Sample.world []).
Proof.
  pose proof (branchtag_resolution Sample.lookup Sample.gitHubHeaders
                lexicalCompare Sample.decode ["std"%string] true
                (Sample.world [Sample.repoInfo; Sample.contents; Sample.readmeText])
                "std"%string Sample.std eq_refl eq_refl) as Hstd.
  pose proof (branchtag_resolution Sample.lookup Sample.gitHubHeaders
                lexicalCompare Sample.decode ["ink"%string] true
                (Sample.world []) "ink"%string Sample.ink eq_refl eq_refl) as Hink.
  pose proof (branchtag_resolution Sample.lookup Sample.gitHubHeaders
                lexicalCompare Sample.decode ["aui"%string] true
                (Sample.world []) "aui"%string Sample.aui eq_refl eq_refl) as Haui.
  cbv zeta in Hstd, Hink, Haui.
  destruct Hstd as [Hstd _]. specialize (Hstd eq_refl).
  destruct Hstd as (Hfirst & _ & Hbranch).
  destruct Hink as [_ [Hink _]]. specialize (Hink eq_refl).
  destruct Haui as [_ [_ Haui]].
  split; [exact Hfirst|]. split; [|split].
  - eexists. split; [vm_compute; reflexivity|].
    destruct (Hbranch _ ltac:(vm_compute; reflexivity))
      as (resp & rest & data & Hw & Hj & Hd).
    vm_compute in Hw. injection Hw as Hrest Hresp. subst resp.
    vm_compute in Hj. injection Hj as Hdata. subst data.
    clear Hd. reflexivity.
  - eexists. split; [vm_compute; reflexivity|].
    apply Hink. vm_compute. reflexivity.
  - apply Haui; discriminate.
Defined.

(** C3, as stated, fails for a module of another provider: the run throws
    and returns no result, so no branchtag defaults to ["master"]. *)
Lemma other_provider_throws :
  parseSegment0 ["aui"%string] = inr ("aui"%string, VNull) /\
  Sample.lookup "aui" = Some Sample.aui /\
  type Sample.aui <> "GitHub"%string /\ type Sample.aui <> "GitLab"%string /\
  Sample.run lexicalCompare ["aui"%string] false [Sample.branches; Sample.tags] =
    (inl (Error "invalid module type"), Sample.world [Sample.branches; Sample.tags]) /\
  ~ (exists r w',
       Sample.run lexicalCompare ["aui"%string] false [Sample.branches; Sample.tags] =
         (inr (Resolved r), w') /\
       branchtag r = VStr "master").
Proof.
  repeat split; try discriminate.
  intros (r & w' & H & _). discriminate.
Qed.

Lemma buildBreadcrumbs_length (segs : list string) :
  List.length (buildBreadcrumbs segs) = S (List.length segs).
Proof. unfold buildBreadcrumbs. now rewrite length_map, length_seq. Qed.

Lemma buildBreadcrumbs_nth (segs : list string) (i : nat) :
  i <= List.length segs ->
  nth i (buildBreadcrumbs segs) [] =
    [ nth i ("x"%string :: segs) ""%string;
      ("/" ++ Str.join "/" (firstn (S i) ("x"%string :: segs)))%string ].
Proof.
  intros Hi. unfold buildBreadcrumbs.
  set (f := fun i : nat => _).
  rewrite (nth_indep _ [] (f 0)) by (rewrite length_map, length_seq; simpl; lia).
  rewrite map_nth, seq_nth by (simpl; lia).
  subst f. cbv beta. now rewrite Nat.add_0_l, Nat.add_1_r.
Qed.

(** C9: a run outside API mode that resolves returns one breadcrumb for
    each prefix of ["x", ...segments]: at index [i] the label is the [i]-th
    element of that list and the link is the slash followed by its first
    [i + 1] elements joined by slashes. *)
Theorem breadcrumbs_spec
        (fetchModule : string -> option ModuleReference) (gitHubHeaders : Headers)
        (localeCompare : string -> string -> Z)
        (bufferToString : Value -> Value -> Exc Value)
        (segs : list string) (w : World) (r : Resolution) (w' : World) :
  fetchModuleMetadata fetchModule gitHubHeaders localeCompare bufferToString
    segs false w = (inr (Resolved r), w') ->
  exists crumbs,
    breadcrumbs r = Some crumbs /\
    List.length crumbs = List.length ("x"%string :: segs) /\
    (forall i, i < List.length ("x"%string :: segs) ->
       nth i crumbs [] =
         [ nth i ("x"%string :: segs) ""%string;
           ("/" ++ Str.join "/" (firstn (S i) ("x"%string :: segs)))%string ]) /\
    (segs = ["foo"; "bar"; "baz"]%string ->
       crumbs = [ ["x"; "/x"]; ["foo"; "/x/foo"]; ["bar"; "/x/foo/bar"];
                  ["baz"; "/x/foo/bar/baz"] ]%string).
Proof.
  intros H.
  apply metadata_resolved in H
    as (n & b & m & u & bt & w1 & bts & cr & w2 & t0 & e0 & w3 & t1 & r0 & c0 & s0
        & _ & _ & _ & _ & H2 & _ & _ & ->).
  unfold listBranchtags in H2. simpl in H2.
  apply bind_inv in H2 as (l & wa & _ & H2). apply ret_inv in H2 as [H2 _].
  injection H2 as _ <-.
  exists (buildBreadcrumbs segs). simpl breadcrumbs.
  split; [reflexivity|]. split; [apply buildBreadcrumbs_length|]. split.
  - intros i Hi. apply buildBreadcrumbs_nth. simpl in Hi. lia.
  - intros ->. reflexivity.
Qed.

Lemma breadcrumbs_spec_witness :
  exists r,
    fst (Sample.run lexicalCompare ["foo"; "bar"; "baz"]%string false
           [Sample.repoInfo; Sample.branches; Sample.tags; Sample.notFound]) =
      inr (Resolved r) /\
    breadcrumbs r = Some [ ["x"; "/x"]; ["foo"; "/x/foo"]; ["bar"; "/x/foo/bar"];
                           ["baz"; "/x/foo/bar/baz"] ]%string.
Proof.
  assert (Sample.run lexicalCompare ["foo"; "bar"; "baz"]%string false
            [Sample.repoInfo; Sample.branches; Sample.tags; Sample.notFound] = _) as H
    by (vm_compute; reflexivity).
  destruct (breadcrumbs_spec _ _ _ _ _ _ _ _ H) as (crumbs & Hc & _ & _ & Hex).
  eexists. split; [rewrite H; reflexivity|].
  rewrite Hc, (Hex eq_refl). reflexivity.
Defined.

(** C4: when the run of a GitHub module reaches the tree request, which is
    made for the text [ref] of the branchtag, and the answer is not ok but
    its body decodes, nothing is thrown: the decoded body is the [errors]
    of the result, [tree], [readme], [content] and [sourceUrl] are [null],
    and the rest of the result is as resolved before. *)
Theorem tree_error_captured
        (fetchModule : string -> option ModuleReference) (gitHubHeaders : Headers)
        (localeCompare : string -> string -> Z)
        (bufferToString : Value -> Value -> Exc Value)
        (segs : list string) (isApi : bool) (w : World)
        (m : ModuleReference) (meta0 : DenoModule) (bt : Value)
        (bts : option (list Value)) (crumbs : option (list (list string)))
        (w2 : World) (ref : string) (resp : Response) (rest : list Reply)
        (e : Value) :
  reaches_tree fetchModule gitHubHeaders segs isApi w m meta0 bt bts crumbs w2 ->
  type m = "GitHub"%string ->
  Js.toString bt = inr ref ->
  replies w2 = Responded resp :: rest ->
  ok resp = false ->
  json resp = Some e ->
  fetchModuleMetadata fetchModule gitHubHeaders localeCompare bufferToString
    segs isApi w =
  (inr (Resolved (mkResolution meta0 bt bts segs crumbs (buildPath segs)
                    VNull None VNull VNull e)),
   mkWorld rest
     (requests w2 ++
      [ mkRequest ("https://api.github.com/repos/" ++ org m ++ "/" ++ repo m
                     ++ "/contents" ++ buildPath segs ++ "?ref=" ++ ref)%string
          (Some gitHubHeaders) ])).
Proof.
  intros Hreach Hty Href Hw Hok Hj.
  rewrite (metadata_from_tree _ _ localeCompare bufferToString _ _ _ _ _ _ _ _ _ Hreach).
  unfold fetchTree, requestHeaders. rewrite Hty. simpl String.eqb. cbv iota.
  rewrite Href, bind_assoc, lift_ok_bind, bind_assoc.
  rewrite (bind_ok _ _ _ _ _ (fetch_responded _ _ _ _ _ Hw)).
  rewrite Hok. unfold Async.bind, Async.getJson. rewrite Hj. reflexivity.
Qed.

Lemma tree_error_captured_witness :
  Sample.run lexicalCompare ["std"; "nowhere"]%string false
    [Sample.repoInfo; Sample.branches; Sample.tags; Sample.notFound] =
  (inr (Resolved (mkResolution
                    (mkMeta "std" Sample.std "https://github.com/denoland/deno_std")
                    (VStr "main") (Some [VStr "main"; VStr "v1"; VStr "v1"])
                    ["std"; "nowhere"]%string
                    (Some (buildBreadcrumbs ["std"; "nowhere"]%string))
                    "/nowhere" VNull None VNull VNull
                    (VObj [("message"%string, VStr "Not Found")]))),
   mkWorld []
     [ mkRequest "https://api.github.com/repos/denoland/deno_std"
         (Some Sample.gitHubHeaders);
       mkRequest "https://api.github.com/repos/denoland/deno_std/branches"
         (Some Sample.gitHubHeaders);
       mkRequest "https://api.github.com/repos/denoland/deno_std/tags"
         (Some Sample.gitHubHeaders);
       mkRequest "https://api.github.com/repos/denoland/deno_std/contents/nowhere?ref=main"
         (Some Sample.gitHubHeaders) ]).
Proof.
  refine (tree_error_captured Sample.lookup Sample.gitHubHeaders lexicalCompare
            Sample.decode ["std"; "nowhere"]%string false
            (Sample.world [Sample.repoInfo; Sample.branches; Sample.tags;
                           Sample.notFound])
            Sample.std _ (VStr "main") _ _
            (mkWorld [Sample.notFound]
               [ mkRequest "https://api.github.com/repos/denoland/deno_std"
                   (Some Sample.gitHubHeaders);
                 mkRequest "https://api.github.com/repos/denoland/deno_std/branches"
                   (Some Sample.gitHubHeaders);
                 mkRequest "https://api.github.com/repos/denoland/deno_std/tags"
                   (Some Sample.gitHubHeaders) ])
            "main"%string
            (mkResponse false "" (Some (VObj [("message"%string, VStr "Not Found")])))
            [] _ _ eq_refl eq_refl eq_refl eq_refl eq_refl).
  exists "std"%string, VNull, "https://github.com/denoland/deno_std"%string,
    (mkWorld [Sample.branches; Sample.tags; Sample.notFound]
       [ mkRequest "https://api.github.com/repos/denoland/deno_std"
           (Some Sample.gitHubHeaders) ]).
  repeat split; reflexivity.
Defined.

(** C4, as stated, fails when the body of the failed answer is not JSON
    (the error page of a gateway): decoding it throws, and so does the
    run. *)
Lemma tree_error_not_json_throws :
  Sample.run lexicalCompare ["std@v1"; "http"]%string true [Sample.badGateway] =
    (inl SyntaxError,
     mkWorld []
       [ mkRequest "https://api.github.com/repos/denoland/deno_std/contents/http?ref=v1"
           (Some Sample.gitHubHeaders) ]) /\
  ~ (exists r w',
       Sample.run lexicalCompare ["std@v1"; "http"]%string true [Sample.badGateway] =
         (inr (Resolved r), w')).
Proof.
  split; [reflexivity|]. intros (r & w' & H). discriminate.
Qed.

(** ** Collations *)

Lemma lexicalCompare_consistent : consistent_collation lexicalCompare.
Proof.
  assert (forall a, String_as_OT.compare a a = Eq) as Hrefl.
  { intros a. destruct (String_as_OT.compare_spec a a) as [_|H|H];
      [reflexivity | |]; exfalso; revert H; apply irreflexivity. }
  assert (forall a b, String_as_OT.compare a b <> Gt ->
            a = b \/ String_as_OT.lt a b) as Hle.
  { intros a b H. destruct (String_as_OT.compare_spec a b); auto. congruence. }
  unfold lexicalCompare. split; [|split].
  - intros a. now rewrite Hrefl.
  - intros a b H.
    destruct (String_as_OT.compare_spec a b) as [_|_|Hlt]; try lia.
    unfold String_as_OT.lt in Hlt. rewrite Hlt. lia.
  - intros a b c Hab Hbc.
    assert (String_as_OT.compare a b <> Gt) as Hab'
      by (destruct (String_as_OT.compare a b); (discriminate || lia)).
    assert (String_as_OT.compare b c <> Gt) as Hbc'
      by (destruct (String_as_OT.compare b c); (discriminate || lia)).
    destruct (Hle _ _ Hab') as [-> | H1]; [exact Hbc|].
    destruct (Hle _ _ Hbc') as [<- | H2]; [exact Hab|].
    assert (String_as_OT.lt a c) as H3 by (etransitivity; eassumption).
    unfold String_as_OT.lt in H3. rewrite H3. lia.
Qed.

Lemma caseInsensitiveCompare_consistent : consistent_collation caseInsensitiveCompare.
Proof.
  destruct lexicalCompare_consistent as (H1 & H2 & H3).
  unfold caseInsensitiveCompare. split; [|split]; intros.
  - apply H1.
  - now apply H2.
  - now apply (H3 _ (Str.toLowerCase b)).
Qed.

(** ** Sorting a listing *)

Section Sorting.
Variable collate : string -> string -> Z.
Hypothesis collate_consistent : consistent_collation collate.

Lemma compareType_typed (a b : Value) (ta tb : string) :
  entry_type a = Some ta -> entry_type b = Some tb ->
  compareType collate a b = inr (collate ta tb).
Proof.
  unfold entry_type, compareType.
  destruct (Js.getProp a "type") as [|[]]; try discriminate. intros [= ->].
  destruct (Js.getProp b "type") as [|[]]; try discriminate. now intros [= ->].
Qed.

Lemma has_type_iff (t : string) (v : Value) :
  has_type t v = true <-> entry_type v = Some t.
Proof.
  unfold has_type. destruct (entry_type v) as [s|]; [|split; discriminate].
  rewrite String.eqb_eq. split; congruence.
Qed.

Lemma type_le_trans (a b c : Value) :
  type_le collate a b -> type_le collate b c -> type_le collate a c.
Proof.
  intros (ta & tb & Ha & Hb & Hab) (tb' & tc & Hb' & Hc & Hbc).
  assert (tb' = tb) as -> by congruence.
  exists ta, tc. repeat split; auto.
  destruct collate_consistent as (_ & _ & Htrans). eauto.
Qed.

Lemma sortInsert_typed (x : Value) (l : list Value) :
  entry_type x <> None -> Forall (fun v => entry_type v <> None) l ->
  exists l',
    sortInsert (compareType collate) x l = inr l' /\
    Permutation (x :: l) l' /\
    (StronglySorted (type_le collate) l -> StronglySorted (type_le collate) l') /\
    (forall t, filter (has_type t) l' = filter (has_type t) (x :: l)).
Proof.
  intros Hx Hl. cbv beta in Hx.
  destruct (entry_type x) as [tx|] eqn:Etx; [clear Hx | congruence].
  induction l as [|y l IH].
  - exists [x]. repeat split; auto. intros _. repeat constructor.
  - inversion Hl as [|? ? Hy Hl']; subst. cbv beta in Hy.
    destruct (entry_type y) as [ty|] eqn:Ety; [clear Hy | congruence].
    cbn [sortInsert]. rewrite (compareType_typed x y tx ty Etx Ety).
    cbn [ExcM.bind]. destruct (Z.leb_spec (collate tx ty) 0) as [Hle | Hgt].
    + exists (x :: y :: l). repeat split; auto.
      intros Hs. constructor; [exact Hs|].
      assert (type_le collate x y) as Hxy by (exists tx, ty; auto).
      constructor; [exact Hxy|].
      inversion Hs as [|? ? _ Hall]; subst.
      eapply Forall_impl; [|exact Hall]. intros z Hz.
      now apply (type_le_trans x y z).
    + destruct (IH Hl') as (r & -> & Hperm & Hsorted & Hstable).
      cbn [ExcM.bind]. exists (y :: r). split; [reflexivity|]. split; [|split].
      * rewrite perm_swap. now constructor.
      * intros Hs. inversion Hs as [|? ? Hs' Hall]; subst.
        constructor; [now apply Hsorted|].
        apply (Permutation_Forall Hperm). constructor; [|exact Hall].
        exists ty, tx. repeat split; auto.
        destruct collate_consistent as (_ & Hanti & _). now apply Hanti.
      * intros t. cbn [filter]. rewrite Hstable. cbn [filter].
        destruct (has_type t x) eqn:Hx, (has_type t y) eqn:Hy; try reflexivity.
        apply has_type_iff in Hx, Hy.
        assert (tx = t) as -> by congruence. assert (ty = t) as -> by congruence.
        destruct collate_consistent as (Hrefl & _ & _).
        rewrite Hrefl in Hgt. lia.
Qed.

(** On a listing whose entries have string types, [sort] does not throw and
    returns the stable sorted order. *)
Lemma sort_typed (l : list Value) :
  Forall (fun v => entry_type v <> None) l ->
  exists l',
    sort (compareType collate) l = inr l' /\
    Permutation l l' /\
    StronglySorted (type_le collate) l' /\
    (forall t, filter (has_type t) l' = filter (has_type t) l).
Proof.
  induction l as [|x l IH]; intros Hl.
  - exists []. repeat split; auto. constructor.
  - inversion Hl as [|? ? Hx Hl']; subst.
    destruct (IH Hl') as (s & Hs & Hperm & Hsorted & Hstable).
    destruct (sortInsert_typed x s Hx (Permutation_Forall Hperm Hl'))
      as (r & Hr & Hperm' & Hsorted' & Hstable').
    exists r. cbn [sort]. rewrite Hs. cbn [ExcM.bind].
    split; [exact Hr|]. split; [|split].
    + rewrite <- Hperm'. now constructor.
    + now apply Hsorted'.
    + intros t. rewrite Hstable'. cbn [filter]. now rewrite Hstable.
Qed.

End Sorting.

(** The tree that [readTree] returns for a listing is the sorted listing. *)
Lemma readTree_listing localeCompare bufferToString m l w t1 r0 c0 s0 w' :
  readTree localeCompare bufferToString m (VArr l) w = (inr (t1, r0, c0, s0), w') ->
  exists l', sort (compareType localeCompare) l = inr l' /\ t1 = VArr l'.
Proof.
  unfold readTree. cbn [Js.truthy]. intros H.
  apply bind_inv in H as (l' & w1 & Hs & H). apply lift_inv in Hs as [Hs ->].
  exists l'. split; [exact Hs|].
  destruct (String.eqb (type m) "GitHub").
  - apply bind_inv in H as (file & w1 & _ & H).
    destruct (Js.truthy file).
    + apply bind_inv in H as (u & w2 & _ & H).
      apply bind_inv in H as (target & w2' & _ & H).
      apply bind_inv in H as (resp & w3 & _ & H).
      apply ret_inv in H as [H _]. congruence.
    + apply ret_inv in H as [H _]. congruence.
  - apply ret_inv in H as [H _]. congruence.
Qed.

(** C7: when the fetched tree is a listing whose entries have string types,
    the tree of the result is that listing in the stable sorted order of the
    comparator [(a, b) => a.type.localeCompare(b.type)]: a permutation of
    the listing, ordered by the collation of the host on the type fields,
    in which the entries of one type keep their order. *)
Theorem tree_listing_sorted
        (fetchModule : string -> option ModuleReference) (gitHubHeaders : Headers)
        (localeCompare : string -> string -> Z)
        (bufferToString : Value -> Value -> Exc Value)
        (segs : list string) (isApi : bool) (w : World)
        (m : ModuleReference) (meta0 : DenoModule) (bt : Value)
        (bts : option (list Value)) (crumbs : option (list (list string)))
        (w2 : World) (l : list Value) (e : Value) (w3 : World)
        (r : Resolution) (w' : World) :
  consistent_collation localeCompare ->
  reaches_tree fetchModule gitHubHeaders segs isApi w m meta0 bt bts crumbs w2 ->
  fetchTree gitHubHeaders m (buildPath segs) bt w2 = (inr (VArr l, e), w3) ->
  Forall (fun v => entry_type v <> None) l ->
  fetchModuleMetadata fetchModule gitHubHeaders localeCompare bufferToString
    segs isApi w = (inr (Resolved r), w') ->
  exists l',
    tree r = VArr l' /\
    sort (compareType localeCompare) l = inr l' /\
    Permutation l l' /\
    StronglySorted (type_le localeCompare) l' /\
    (forall t, filter (has_type t) l' = filter (has_type t) l).
Proof.
  intros Hlc Hreach Htree Htyped H.
  rewrite (metadata_from_tree _ _ localeCompare bufferToString _ _ _ _ _ _ _ _ _ Hreach)
    in H.
  rewrite (bind_ok _ _ _ _ _ Htree) in H. cbn [fst snd] in H.
  apply bind_inv in H as ([[[t1 r0] c0] s0] & w4 & Hread & H).
  apply ret_inv in H as [H _]. injection H as <-.
  apply readTree_listing in Hread as (l' & Hsort & ->).
  destruct (sort_typed localeCompare Hlc l Htyped) as (l'' & Hsort' & Hperm & Hs & Hst).
  assert (l'' = l') as -> by congruence.
  exists l'. cbn [tree]. repeat split; auto.
Qed.

Lemma tree_listing_sorted_witness :
  exists r l',
    fst (Sample.run lexicalCompare ["std"%string] false
           [Sample.repoInfo; Sample.branches; Sample.tags; Sample.contents;
            Sample.readmeText]) = inr (Resolved r) /\
    tree r = VArr l' /\
    l' = [Sample.entry "http" "dir"; Sample.entry "fs" "dir";
          Sample.entry "README.md" "file"; Sample.entry "mod.ts" "file"] /\
    Permutation Sample.listing l' /\
    StronglySorted (type_le lexicalCompare) l'.
Proof.
  assert (Sample.run lexicalCompare ["std"%string] false
            [Sample.repoInfo; Sample.branches; Sample.tags; Sample.contents;
             Sample.readmeText] = _) as H by (vm_compute; reflexivity).
  assert (reaches_tree Sample.lookup Sample.gitHubHeaders ["std"%string] false
            (Sample.world [Sample.repoInfo; Sample.branches; Sample.tags;
                           Sample.contents; Sample.readmeText])
            Sample.std
            (mkMeta "std" Sample.std "https://github.com/denoland/deno_std")
            (VStr "main") (Some [VStr "main"; VStr "v1"; VStr "v1"])
            (Some (buildBreadcrumbs ["std"%string]))
            (mkWorld [Sample.contents; Sample.readmeText]
               [ mkRequest "https://api.github.com/repos/denoland/deno_std"
                   (Some Sample.gitHubHeaders);
                 mkRequest "https://api.github.com/repos/denoland/deno_std/branches"
                   (Some Sample.gitHubHeaders);
                 mkRequest "https://api.github.com/repos/denoland/deno_std/tags"
                   (Some Sample.gitHubHeaders) ])) as Hreach.
  { exists "std"%string, VNull, "https://github.com/denoland/deno_std"%string,
      (mkWorld [Sample.branches; Sample.tags; Sample.contents; Sample.readmeText]
         [ mkRequest "https://api.github.com/repos/denoland/deno_std"
             (Some Sample.gitHubHeaders) ]).
    repeat split; reflexivity. }
  assert (Forall (fun v => entry_type v <> None) Sample.listing) as Htyped
    by (repeat constructor; discriminate).
  destruct (tree_listing_sorted Sample.lookup Sample.gitHubHeaders lexicalCompare
              Sample.decode ["std"%string] false _ _ _ _ _ _ _ Sample.listing VNull
              _ _ _ lexicalCompare_consistent Hreach eq_refl Htyped H)
    as (l' & Ht & Hs & Hperm & Hsorted & _).
  eexists. exists l'. split; [rewrite H; reflexivity|].
  split; [exact Ht|]. split; [|split; assumption].
  vm_compute in Hs. injection Hs as <-. reflexivity.
Defined.

(** C7, as stated, fails where the collation of the host is not the lexical
    order of the strings: under a collation that compares letters before
    case, the listing [File, dir], which is in lexical order, comes back as
    [dir, File], which is not. *)
Lemma listing_not_lexical :
  consistent_collation caseInsensitiveCompare /\
  StronglySorted (type_le lexicalCompare) Sample.mixedCase /\
  exists r w',
    Sample.run caseInsensitiveCompare ["std@v1"%string] true
      [Sample.jsonReply true (VArr Sample.mixedCase)] = (inr (Resolved r), w') /\
    tree r = VArr [Sample.entry "src" "dir"; Sample.entry "LICENSE" "File"] /\
    ~ StronglySorted (type_le lexicalCompare)
        [Sample.entry "src" "dir"; Sample.entry "LICENSE" "File"].
Proof.
  split; [exact caseInsensitiveCompare_consistent|]. split.
  - repeat constructor.
    exists "File"%string, "dir"%string. repeat split. vm_compute. discriminate.
  - eexists. eexists. split; [vm_compute; reflexivity|]. split; [reflexivity|].
    intros H. inversion H as [|? ? _ Hall]; subst.
    inversion Hall as [|? ? (ta & tb & Ha & Hb & Hle) _]; subst.
    vm_compute in Ha, Hb. injection Ha as <-. injection Hb as <-.
    vm_compute in Hle. now apply Hle.
Qed.

(** * Further properties *)

(** ** [isImageFromName] *)

Lemma substring_skip (pre t : string) (m : nat) :
  substring (String.length pre) m (pre ++ t) = substring 0 m t.
Proof. induction pre as [|c pre IH]; simpl; [reflexivity | exact IH]. Qed.

Lemma substring_split (s : string) (k : nat) :
  k <= String.length s ->
  s = (substring 0 k s ++ substring k (String.length s - k) s)%string.
Proof.
  revert k. induction s as [|c s IH]; intros k Hk.
  - destruct k; [reflexivity | simpl in Hk; lia].
  - destruct k as [|k].
    + rewrite Nat.sub_0_r, substring_whole. reflexivity.
    + simpl in Hk. cbn [substring append String.length Nat.sub].
      f_equal. apply IH. lia.
Qed.

Lemma append_length (a b : string) :
  String.length (a ++ b) = String.length a + String.length b.
Proof. induction a as [|c a IH]; simpl; [reflexivity | now rewrite IH]. Qed.

Lemma endsWith_iff (s suffix : string) :
  Str.endsWith s suffix = true <-> exists pre, s = (pre ++ suffix)%string.
Proof.
  unfold Str.endsWith. rewrite andb_true_iff, Nat.leb_le, String.eqb_eq. split.
  - intros [Hle Hsub].
    exists (substring 0 (String.length s - String.length suffix) s).
    pose proof (substring_split s (String.length s - String.length suffix)) as H.
    replace (String.length s - (String.length s - String.length suffix))
      with (String.length suffix) in H by lia.
    rewrite Hsub in H. apply H. lia.
  - intros [pre ->]. rewrite append_length. split; [lia|].
    replace (String.length pre + String.length suffix - String.length suffix)
      with (String.length pre) by lia.
    rewrite substring_skip. apply substring_whole.
Qed.

(** X1: a name is an image name exactly when it ends with a dot followed by
    one of gif, jpg, jpeg, png, svg, written in these very letters; what
    stands before the dot does not matter and may be empty. *)
Theorem isImageFromName_iff (name0 : string) :
  isImageFromName name0 = true <->
  exists stem ext,
    In ext ["gif"; "jpg"; "jpeg"; "png"; "svg"]%string /\
    name0 = (stem ++ "." ++ ext)%string.
Proof.
  unfold isImageFromName. rewrite existsb_exists. split.
  - intros (ext & Hin & H). apply endsWith_iff in H as [stem ->]. eauto.
  - intros (stem & ext & Hin & ->). exists ext. split; [exact Hin|].
    apply endsWith_iff. eauto.
Qed.

Lemma isImageFromName_iff_witness :
  isImageFromName "logo.v2.svg" = true /\
  ~ (exists stem ext,
       In ext ["gif"; "jpg"; "jpeg"; "png"; "svg"]%string /\
       "photo.PNG"%string = (stem ++ "." ++ ext)%string).
Proof.
  split.
  - apply (proj2 (isImageFromName_iff "logo.v2.svg")).
    exists "logo.v2"%string, "svg"%string. split; [simpl; tauto | reflexivity].
  - intros H. apply (proj2 (isImageFromName_iff "photo.PNG")) in H. discriminate.
Defined.

(** ** [transformBranchtags] *)

Lemma getProp_prop (v : Value) (key : string) :
  Js.getProp v key = if nullish v then inl TypeError else inr (prop key v).
Proof. now destruct v. Qed.

Lemma mapM_names (l : list Value) (out : list Value) :
  ExcM.mapM (fun e => Js.getProp e "name") l = inr out <->
  Forall (fun e => nullish e = false) l /\ out = map (prop "name") l.
Proof.
  revert out. induction l as [|x l IH]; intros out; cbn [ExcM.mapM map].
  - split; [intros [= <-]; now split | intros [_ ->]; reflexivity].
  - rewrite getProp_prop. destruct (nullish x) eqn:Hx; cbn [ExcM.bind].
    + split; [discriminate|]. intros [H _]. inversion H; congruence.
    + destruct (ExcM.mapM (fun e => Js.getProp e "name") l) as [e|ys] eqn:Hl;
        cbn [ExcM.bind].
      * split; [discriminate|]. intros [H ->]. inversion H as [|? ? _ Hl']; subst.
        discriminate (proj2 (IH _) (conj Hl' eq_refl)).
      * destruct (proj1 (IH ys) eq_refl) as [Hall ->].
        split; [intros [= <-]; split; [now constructor | reflexivity]|].
        now intros [_ ->].
Qed.

Lemma mapM_names_error (l : list Value) (e : exn) :
  ExcM.mapM (fun x => Js.getProp x "name") l = inl e -> e = TypeError.
Proof.
  induction l as [|x l IH]; cbn [ExcM.mapM]; [discriminate|].
  rewrite getProp_prop. destruct (nullish x); cbn [ExcM.bind]; [now intros [= <-]|].
  destruct (ExcM.mapM _ l) as [e'|ys]; cbn [ExcM.bind]; [|discriminate].
  intros [= <-]. now apply IH.
Qed.

(** X2: for GitHub the transformer succeeds exactly on an array none of
    whose elements is [null]: the result has one element for each element of
    the array, in order, its [name] (or [undefined] where there is none).
    On anything else it throws a [TypeError]. *)
Theorem transformBranchtags_github_spec (data : Value) :
  (forall out,
     transformBranchtags data "GitHub" = inr out <->
     exists l,
       data = VArr l /\ Forall (fun e => nullish e = false) l /\
       out = map (prop "name") l) /\
  (forall e, transformBranchtags data "GitHub" = inl e -> e = TypeError).
Proof.
  unfold transformBranchtags. cbn [String.eqb Ascii.eqb Bool.eqb andb].
  change (String.eqb "GitHub" "GitHub") with true. cbv iota.
  split.
  - intros out. destruct data as [| | | | |l|f];
      try (split; [discriminate | intros (l' & H & _); discriminate]).
    rewrite mapM_names. split.
    + intros [H ->]. now exists l.
    + intros (l' & [= <-] & H). exact H.
  - intros e. destruct data; try (now intros [= <-]). apply mapM_names_error.
Qed.

Lemma transformBranchtags_github_spec_witness :
  transformBranchtags
    (VArr [VObj [("name"%string, VStr "main")]; VObj [("sha"%string, VStr "0a1")]])
    "GitHub" = inr [VStr "main"; VUndefined] /\
  forall e,
    transformBranchtags (VArr [VObj [("name"%string, VStr "main")]; VNull]) "GitHub"
      = inl e -> e = TypeError.
Proof.
  split.
  - apply (proj1 (transformBranchtags_github_spec _)).
    eexists. split; [reflexivity|]. split; [|reflexivity].
    repeat constructor.
  - apply (proj2 (transformBranchtags_github_spec _)).
Defined.

(** X3: for GitLab the transformer returns the [Branches] followed by the
    [Tags] when both are arrays, and throws a [TypeError] when the data is
    [null] or either key is missing or [null]. *)
Theorem transformBranchtags_gitlab_spec (data : Value) :
  (forall bs ts,
     prop "Branches" data = VArr bs -> prop "Tags" data = VArr ts ->
     transformBranchtags data "GitLab" = inr (bs ++ ts)) /\
  (nullish (prop "Branches" data) = true \/ nullish (prop "Tags" data) = true ->
   transformBranchtags data "GitLab" = inl TypeError).
Proof.
  unfold transformBranchtags.
  change (String.eqb "GitLab" "GitHub") with false.
  change (String.eqb "GitLab" "GitLab") with true. cbv iota.
  rewrite !getProp_prop. split.
  - intros bs ts Hb Ht. destruct (nullish data) eqn:Hn.
    + destruct data; discriminate.
    + cbn [ExcM.bind]. now rewrite Hb, Ht.
  - intros H. destruct (nullish data); [reflexivity|]. cbn [ExcM.bind].
    destruct (prop "Branches" data) as [| | | |s|l|f]; try reflexivity;
      cbn [Js.spread ExcM.bind];
      destruct H as [H|H]; try discriminate;
      destruct (prop "Tags" data); try discriminate; reflexivity.
Qed.

Lemma transformBranchtags_gitlab_spec_witness :
  transformBranchtags
    (VObj [("Branches"%string, VArr [VStr "main"]);
           ("Tags"%string, VArr [VStr "v1"; VStr "v2"])]) "GitLab" =
    inr [VStr "main"; VStr "v1"; VStr "v2"] /\
  transformBranchtags (VObj [("Branches"%string, VArr [VStr "main"])]) "GitLab" =
    inl TypeError.
Proof.
  split.
  - exact (proj1 (transformBranchtags_gitlab_spec
                    (VObj [("Branches"%string, VArr [VStr "main"]);
                           ("Tags"%string, VArr [VStr "v1"; VStr "v2"])]))
             [VStr "main"] [VStr "v1"; VStr "v2"] eq_refl eq_refl).
  - exact (proj2 (transformBranchtags_gitlab_spec
                    (VObj [("Branches"%string, VArr [VStr "main"])]))
             (or_intror eq_refl)).
Defined.

(** ** What the parse of segment 0 returns *)

Lemma take_while_all p (s : string) : all_chars p (take_while p s) = true.
Proof.
  induction s as [|c s IH]; cbn [take_while]; [reflexivity|].
  destruct (p c) eqn:Hc; cbn [all_chars]; [now rewrite Hc, IH | reflexivity].
Qed.

Lemma drop_while_split p (s : string) :
  exists pre, s = (pre ++ drop_while p s)%string /\ all_chars p pre = true.
Proof.
  exists (take_while p s). split; [now rewrite take_drop_while | apply take_while_all].
Qed.

(** The parse, when it succeeds: the module name is a non-empty run of
    identifier characters of segment 0 that only characters outside the
    class precede, and the branchtag is [null] or a non-empty string
    without line terminator. *)
Lemma parseSegment0_shape (segs : list string) (moduleName : string) (bt : Value) :
  parseSegment0 segs = inr (moduleName, bt) ->
  moduleName <> ""%string /\
  all_chars ident_char moduleName = true /\
  (exists pre rest,
     segment0 segs = (pre ++ moduleName ++ rest)%string /\
     all_chars not_ident_char pre = true) /\
  (bt = VNull \/
   exists t, bt = VStr t /\ t <> ""%string /\ all_chars Regex.dot t = true).
Proof.
  intros H.
  destruct (all_chars not_ident_char (segment0 segs)) eqn:E.
  { rewrite (parseSegment0_none segs E) in H. discriminate. }
  rewrite (parseSegment0_found segs E) in H. injection H as <- <-.
  unfold leftmost_identifier, branchtag_after.
  destruct (drop_while_split not_ident_char (segment0 segs)) as (pre & Hs & Hpre).
  destruct (drop_while not_ident_char (segment0 segs)) as [|a t] eqn:Hd.
  { apply drop_while_nil_iff in Hd. congruence. }
  pose proof (drop_while_head _ _ _ _ Hd) as Ha.
  split; [now apply take_while_ident_keep|].
  split; [apply take_while_all|]. split.
  - exists pre, (drop_while ident_char (String a t)).
    now rewrite take_drop_while.
  - destruct (drop_while ident_char (String a t)) as [|b rest]; [now left|].
    destruct (Ascii.eqb "@" b); [|now left].
    pose proof (take_while_all Regex.dot rest) as Hall.
    destruct (take_while Regex.dot rest) as [|x u]; [now left|].
    right. exists (String x u). repeat split; [discriminate | exact Hall].
Qed.



(** ** Breadcrumbs *)

Lemma concat_snoc (sep : string) (l : list string) (x : string) :
  l <> [] ->
  String.concat sep (l ++ [x]) = (String.concat sep l ++ sep ++ x)%string.
Proof.
  induction l as [|a l IH]; intros Hne; [congruence|].
  destruct l as [|b l].
  - simpl. reflexivity.
  - change (String.concat sep ((a :: b :: l) ++ [x]))
      with (a ++ sep ++ String.concat sep ((b :: l) ++ [x]))%string.
    rewrite IH by discriminate.
    change (String.concat sep (a :: b :: l))
      with (a ++ sep ++ String.concat sep (b :: l))%string.
    now rewrite !append_assoc.
Qed.

Lemma firstn_snoc {A : Type} (l : list A) (k : nat) (d : A) :
  k < List.length l -> firstn (S k) l = firstn k l ++ [nth k l d].
Proof.
  revert k. induction l as [|a l IH]; intros k Hk; [simpl in Hk; lia|].
  destruct k as [|k]; [reflexivity|].
  simpl in Hk. cbn [firstn nth app]. f_equal. apply IH. lia.
Qed.

(** X7: the breadcrumbs form a chain: the first is the root [("x", "/x")],
    and the link of every later one is the link of the one before it, a
    slash and its own label, the label being the segment itself. *)
Theorem breadcrumbs_chain (segs : list string) (i : nat) :
  i < List.length segs ->
  nth 0 (buildBreadcrumbs segs) [] = ["x"; "/x"]%string /\
  exists label href,
    nth i (buildBreadcrumbs segs) [] = [label; href] /\
    nth (S i) (buildBreadcrumbs segs) [] =
      [nth i segs ""%string; (href ++ "/" ++ nth i segs "")%string].
Proof.
  intros Hi. split; [reflexivity|].
  rewrite (buildBreadcrumbs_nth segs i) by lia.
  rewrite (buildBreadcrumbs_nth segs (S i)) by lia.
  eexists. eexists. split; [reflexivity|].
  cbn [nth]. f_equal. f_equal.
  rewrite (firstn_snoc ("x"%string :: segs) (S i) ""%string) by (simpl; lia).
  unfold Str.join. rewrite concat_snoc by discriminate.
  cbn [nth]. now rewrite <- append_assoc.
Qed.

Lemma breadcrumbs_chain_witness :
  exists label href,
    nth 1 (buildBreadcrumbs ["std"; "http"; "server.ts"]%string) [] = [label; href] /\
    nth 2 (buildBreadcrumbs ["std"; "http"; "server.ts"]%string) [] =
      ["http"%string; (href ++ "/" ++ "http")%string].
Proof.
  exact (proj2 (breadcrumbs_chain ["std"; "http"; "server.ts"]%string 1
                  ltac:(simpl; lia))).
Defined.

(** ** Sorting a listing that is in order *)

Lemma sort_in_order (collate : string -> string -> Z) (l : list Value) :
  StronglySorted (type_le collate) l ->
  sort (compareType collate) l = inr l.
Proof.
  induction l as [|x l IH]; intros Hs; [reflexivity|].
  inversion Hs as [|? ? Hs' Hall]; subst.
  cbn [sort]. rewrite (IH Hs'). cbn [ExcM.bind].
  destruct l as [|y l]; [reflexivity|].
  inversion Hall as [|? ? (tx & ty & Hx & Hy & Hle) _]; subst.
  cbn [sortInsert]. rewrite (compareType_typed collate x y tx ty Hx Hy).
  cbn [ExcM.bind]. apply Z.leb_le in Hle. now rewrite Hle.
Qed.

(** X15: a listing that is already in the order of the collation comes back
    unchanged, ties included; so sorting a sorted listing again changes
    nothing. *)
Theorem sort_fixed_point (collate : string -> string -> Z) (l : list Value) :
  (StronglySorted (type_le collate) l ->
   sort (compareType collate) l = inr l) /\
  (consistent_collation collate ->
   Forall (fun v => entry_type v <> None) l ->
   exists l',
     sort (compareType collate) l = inr l' /\
     sort (compareType collate) l' = inr l').
Proof.
  split; [apply sort_in_order|].
  intros Hc Hl. destruct (sort_typed collate Hc l Hl) as (l' & Hs & _ & Hsorted & _).
  exists l'. split; [exact Hs | now apply sort_in_order].
Qed.

Lemma sort_fixed_point_witness :
  exists l',
    sort (compareType lexicalCompare) Sample.listing = inr l' /\
    sort (compareType lexicalCompare) l' = inr l'.
Proof.
  refine (proj2 (sort_fixed_point lexicalCompare Sample.listing)
            lexicalCompare_consistent _).
  repeat constructor; discriminate.
Defined.

(** ** Repository URLs *)

Lemma split_at_first_slash (a a' b b' : string) :
  has_char "/" a = false -> has_char "/" a' = false ->
  (a ++ "/" ++ b)%string = (a' ++ "/" ++ b')%string ->
  a = a' /\ b = b'.
Proof.
  revert a'. induction a as [|c a IH]; intros a' Ha Ha' H.
  - destruct a' as [|c' a']; [now injection H|].
    cbn [has_char] in Ha'. apply orb_false_iff in Ha' as [Hc' _].
    injection H as Hc _. subst c'. discriminate.
  - cbn [has_char] in Ha. apply orb_false_iff in Ha as [Hc Ha].
    destruct a' as [|c' a'].
    + injection H as Hc' _. subst c. discriminate.
    + cbn [has_char] in Ha'. apply orb_false_iff in Ha' as [_ Ha'].
      injection H as -> H. destruct (IH a' Ha Ha' H) as [-> ->]. now split.
Qed.

(** X16: two references whose organisation names hold no slash and that
    have the same repository URL are the same reference: the URL tells the
    provider, the organisation and the repository apart. *)
Theorem createRepoUrl_injective (m1 m2 : ModuleReference) (u : string) :
  createRepoUrl m1 = inr u -> createRepoUrl m2 = inr u ->
  has_char "/" (org m1) = false -> has_char "/" (org m2) = false ->
  m1 = m2.
Proof.
  unfold createRepoUrl. destruct m1 as [t1 o1 r1], m2 as [t2 o2 r2]. cbn [type org repo].
  intros H1 H2 Ho1 Ho2.
  destruct (String.eqb t1 "GitHub") eqn:E1;
    [|destruct (String.eqb t1 "GitLab") eqn:E1'; [|discriminate]];
  (destruct (String.eqb t2 "GitHub") eqn:E2;
    [|destruct (String.eqb t2 "GitLab") eqn:E2'; [|discriminate]]);
  injection H1 as <-;
  try (apply String.eqb_eq in E1); try (apply String.eqb_eq in E1');
  try (apply String.eqb_eq in E2); try (apply String.eqb_eq in E2'); subst;
  cbn [append] in H2; try discriminate; injection H2 as H2;
  destruct (split_at_first_slash _ _ _ _ Ho2 Ho1 H2) as [-> ->]; reflexivity.
Qed.

Lemma createRepoUrl_injective_witness :
  mkRef "GitHub" "denoland" "deno_std" = Sample.std.
Proof.
  exact (createRepoUrl_injective (mkRef "GitHub" "denoland" "deno_std") Sample.std
           "https://github.com/denoland/deno_std" eq_refl eq_refl eq_refl eq_refl).
Defined.

(** ** The branch/tag fetcher when something fails *)

Lemma fetchRefs_fails (ty : string) (h : option Headers) (pre : list string) :
  forall (u : string) (post : list string) (rs : list Response)
         (outs : list (list Value)) (refs : list Value) (w : World)
         (bad : Reply) (rest : list Reply) (e : exn),
    List.length rs = List.length pre ->
    Forall2 (fun r o => transformed ty r = inr o) rs outs ->
    replies w = map Responded rs ++ bad :: rest ->
    reply_outcome ty bad = inl e ->
    fetchRefs ty h (pre ++ u :: post) refs w =
      (inl e,
       mkWorld rest (requests w ++ map (fun x => mkRequest x h) (pre ++ [u]))).
Proof.
  induction pre as [|p pre IH];
    intros u post rs outs refs w bad rest e Hlen Hall Hw Hbad.
  - destruct rs; [|discriminate]. cbn [map app] in *. cbn [fetchRefs].
    unfold Async.bind at 1, Async.fetch. rewrite Hw.
    destruct bad as [|r]; cbn [reply_outcome] in Hbad.
    + now injection Hbad as <-.
    + unfold transformed in Hbad. unfold Async.bind, Async.getJson.
      destruct (json r) as [data|].
      * unfold Async.ret, Async.lift. now rewrite Hbad.
      * unfold Async.throw. now injection Hbad as <-.
  - destruct rs as [|r rs]; [discriminate|].
    inversion Hall as [|? o ? outs' Hr Hrest]; subst.
    cbn [app fetchRefs]. cbn [map app] in Hw.
    rewrite (bind_ok _ _ _ _ _ (fetch_responded p h w r _ Hw)).
    unfold transformed in Hr. destruct (json r) as [data|] eqn:Hj; [|discriminate].
    unfold Async.bind at 1, Async.getJson. rewrite Hj. unfold Async.ret.
    unfold Async.bind at 1, Async.lift. rewrite Hr.
    rewrite (IH u post rs outs' (refs ++ o) _ bad rest e); cbn in *; auto.
    now rewrite <- !app_assoc.
Qed.

(** X5: the fetcher gives up at the first URL whose request fails, whose
    body is not JSON or whose data the transformer refuses: it throws that
    error, the names gathered from the earlier URLs are lost, and the later
    URLs are not requested. *)
Theorem fetchModuleBranchtags_stops
        (gitHubHeaders : Headers) (m : ModuleReference)
        (pre : list string) (u : string) (post : list string)
        (rs : list Response) (outs : list (list Value))
        (w : World) (bad : Reply) (rest : list Reply) (e : exn) :
  createBranchtagUrls m = inr (pre ++ u :: post) ->
  List.length rs = List.length pre ->
  Forall2 (fun r o => transformed (type m) r = inr o) rs outs ->
  replies w = map Responded rs ++ bad :: rest ->
  reply_outcome (type m) bad = inl e ->
  fetchModuleBranchtags gitHubHeaders m w =
    (inl e,
     mkWorld rest
       (requests w ++
        map (fun x => mkRequest x (requestHeaders gitHubHeaders m)) (pre ++ [u]))).
Proof.
  intros Hurls Hlen Hall Hw Hbad. unfold fetchModuleBranchtags, requestHeaders.
  unfold Async.bind at 1, Async.lift. rewrite Hurls.
  now apply (fetchRefs_fails _ _ pre u post rs outs [] w bad rest e).
Qed.

Lemma fetchModuleBranchtags_stops_witness :
  fetchModuleBranchtags Sample.gitHubHeaders Sample.std
    (Sample.world [Sample.badGateway; Sample.tags]) =
  (inl SyntaxError,
   mkWorld [Sample.tags]
     [ mkRequest "https://api.github.com/repos/denoland/deno_std/branches"
         (Some Sample.gitHubHeaders) ]).
Proof.
  exact (fetchModuleBranchtags_stops Sample.gitHubHeaders Sample.std []
           "https://api.github.com/repos/denoland/deno_std/branches"
           ["https://api.github.com/repos/denoland/deno_std/tags"%string]
           [] [] (Sample.world [Sample.badGateway; Sample.tags])
           Sample.badGateway [Sample.tags] SyntaxError
           eq_refl eq_refl (Forall2_nil _) eq_refl eq_refl).
Defined.

(** X4: for a reference of an unknown provider the fetcher throws the
    invalid-type error before any request is made, and so does the
    transformer whatever the data. *)
Theorem unknown_provider_refs
        (gitHubHeaders : Headers) (m : ModuleReference) (w : World) (data : Value) :
  type m <> "GitHub"%string -> type m <> "GitLab"%string ->
  fetchModuleBranchtags gitHubHeaders m w = (inl (Error "invalid module type"), w) /\
  transformBranchtags data (type m) = inl (Error "invalid module type").
Proof.
  intros H1 H2. unfold fetchModuleBranchtags, transformBranchtags.
  unfold Async.bind, Async.lift.
  rewrite (proj2 (proj2 (proj2 (url_builders_lemma m)) H1 H2)).
  apply String.eqb_neq in H1, H2. now rewrite H1, H2.
Qed.

Lemma unknown_provider_refs_witness :
  fetchModuleBranchtags Sample.gitHubHeaders Sample.aui
    (Sample.world [Sample.branches]) =
  (inl (Error "invalid module type"), Sample.world [Sample.branches]).
Proof.
  refine (proj1 (unknown_provider_refs Sample.gitHubHeaders Sample.aui
                   (Sample.world [Sample.branches]) VNull _ _)); discriminate.
Defined.

(** ** Where the GitHub headers go *)

Section Emits.
Context {P : Request -> Prop}.

Lemma emits_ret {A : Type} (a : A) : emits P (Async.ret a).
Proof. intros w. exists []. simpl. now rewrite app_nil_r. Qed.

Lemma emits_throw {A : Type} (e : exn) : emits P (@Async.throw A e).
Proof. intros w. exists []. simpl. now rewrite app_nil_r. Qed.

Lemma emits_lift {A : Type} (c : Exc A) : emits P (Async.lift c).
Proof. intros w. exists []. simpl. now rewrite app_nil_r. Qed.

Lemma emits_getJson (r : Response) : emits P (Async.getJson r).
Proof.
  unfold Async.getJson. destruct (json r); [apply emits_ret | apply emits_throw].
Qed.

Lemma emits_fetch (u : string) (h : option Headers) :
  P (mkRequest u h) -> emits P (Async.fetch u h).
Proof.
  intros HP w. exists [mkRequest u h]. unfold Async.fetch.
  destruct (replies w) as [|[|r] rest]; simpl; split; auto.
Qed.

Lemma emits_bind {A B : Type} (c : M A) (k : A -> M B) :
  emits P c -> (forall a, emits P (k a)) -> emits P (Async.bind c k).
Proof.
  intros Hc Hk w. unfold Async.bind.
  destruct (Hc w) as (m1 & H1 & P1).
  destruct (c w) as [[e|a] w1]; simpl in *.
  - eauto.
  - destruct (Hk a w1) as (m2 & H2 & P2).
    exists (m1 ++ m2). rewrite H2, H1, app_assoc. split; [reflexivity|].
    apply Forall_app. now split.
Qed.

Lemma emits_fetchRefs ty h urls refs :
  Forall (fun u => P (mkRequest u h)) urls -> emits P (fetchRefs ty h urls refs).
Proof.
  revert refs. induction urls as [|u urls IH]; intros refs Hall; cbn [fetchRefs].
  - apply emits_ret.
  - inversion Hall; subst.
    apply emits_bind; [now apply emits_fetch | intros resp].
    apply emits_bind; [apply emits_getJson | intros data].
    apply emits_bind; [apply emits_lift | intros out]. now apply IH.
Qed.

End Emits.

Lemma prefix_append (a b : string) : String.prefix a (a ++ b) = true.
Proof.
  induction a as [|c a IH]; cbn [append String.prefix]; [now destruct b|].
  destruct (ascii_dec c c); [exact IH | congruence].
Qed.

Lemma prefix_under (a b c : string) :
  String.prefix b c = true -> String.prefix (a ++ b) (a ++ c) = true.
Proof.
  intros H. induction a as [|x a IH]; cbn [append String.prefix]; [exact H|].
  destruct (ascii_dec x x); [exact IH | congruence].
Qed.

Lemma guarded_api gitHubHeaders m (tail : string) :
  guarded gitHubHeaders m
    (mkRequest ("https://api.github.com/repos/" ++ org m ++ "/" ++ repo m ++ tail)%string
       (Some gitHubHeaders)).
Proof.
  right. split; [reflexivity|]. cbn [url].
  apply prefix_under, prefix_under, (prefix_under "/"), prefix_append.
Qed.

Lemma guarded_plain gitHubHeaders m (u : string) :
  guarded gitHubHeaders m (mkRequest u None).
Proof. now left. Qed.

Lemma emits_fetchModuleBranchtags gitHubHeaders m :
  emits (guarded gitHubHeaders m) (fetchModuleBranchtags gitHubHeaders m).
Proof.
  intros w. unfold fetchModuleBranchtags, Async.bind, Async.lift, createBranchtagUrls.
  destruct (String.eqb (type m) "GitHub").
  - apply emits_fetchRefs.
    apply Forall_cons; [apply guarded_api|].
    apply Forall_cons; [apply guarded_api | apply Forall_nil].
  - destruct (String.eqb (type m) "GitLab").
    + apply emits_fetchRefs.
      apply Forall_cons; [apply guarded_plain | apply Forall_nil].
    + exists []. simpl. now rewrite app_nil_r.
Qed.

Lemma emits_resolveBranchtag gitHubHeaders m bt0 :
  emits (guarded gitHubHeaders m) (resolveBranchtag gitHubHeaders m bt0).
Proof.
  unfold resolveBranchtag, requestHeaders.
  destruct (negb (Js.truthy bt0)); [|apply emits_ret].
  destruct (String.eqb (type m) "GitHub").
  - apply emits_bind; [|intros resp].
    + apply emits_fetch.
      pose proof (guarded_api gitHubHeaders m "") as H.
      now rewrite append_nil_r in H.
    + apply emits_bind; [apply emits_getJson | intros data; apply emits_lift].
  - destruct (String.eqb (type m) "GitLab"); apply emits_ret.
Qed.

Lemma emits_fetchTree gitHubHeaders m segs bt :
  emits (guarded gitHubHeaders m) (fetchTree gitHubHeaders m (buildPath segs) bt).
Proof.
  unfold fetchTree, requestHeaders.
  destruct (String.eqb (type m) "GitHub").
  - apply emits_bind; [apply emits_lift | intros ref].
    apply emits_bind; [apply emits_fetch, guarded_api | intros resp].
    destruct (ok resp);
      (apply emits_bind; [apply emits_getJson | intros data; apply emits_ret]).
  - destruct (String.eqb (type m) "GitLab"); [|apply emits_ret].
    apply emits_bind; [apply emits_lift | intros ref; apply emits_ret].
Qed.

Ltac emits :=
  repeat first
    [ apply emits_ret | apply emits_throw | apply emits_lift | apply emits_getJson
    | apply emits_fetch; first [apply guarded_plain | apply guarded_api]
    | apply emits_bind; [|intros ?]
    | match goal with
      | |- emits _ (if ?b then _ else _) => destruct b
      | |- emits _ (match ?x with _ => _ end) => destruct x
      end ].

Lemma emits_readTree gitHubHeaders localeCompare bufferToString m t :
  emits (guarded gitHubHeaders m) (readTree localeCompare bufferToString m t).
Proof. unfold readTree. emits. Qed.

(** X14: whatever the replies, every request a run of [fetchModuleMetadata]
    makes either carries no headers or carries the GitHub headers to a URL
    of the GitHub API under the module's own repository: the headers are
    never sent to a URL taken from a response, such as the download URL of
    the README. *)
Theorem headers_stay_with_github
        (fetchModule : string -> option ModuleReference) (gitHubHeaders : Headers)
        (localeCompare : string -> string -> Z)
        (bufferToString : Value -> Value -> Exc Value)
        (segs : list string) (isApi : bool) (w : World)
        (moduleName : string) (branchtag0 : Value) (m : ModuleReference) :
  parseSegment0 segs = inr (moduleName, branchtag0) ->
  fetchModule moduleName = Some m ->
  exists more,
    requests (snd (fetchModuleMetadata fetchModule gitHubHeaders localeCompare
                     bufferToString segs isApi w)) = requests w ++ more /\
    Forall (guarded gitHubHeaders m) more.
Proof.
  intros Hp Hm. rewrite (metadata_found _ _ _ _ _ _ _ _ _ _ Hp Hm).
  lazymatch goal with
  | |- context [snd (?c w)] =>
      assert (emits (guarded gitHubHeaders m) c) as H; [|exact (H w)]
  end.
  apply emits_bind; [apply emits_lift | intros url0].
  apply emits_bind; [apply emits_resolveBranchtag | intros bt].
  apply emits_bind; [|intros x].
  - unfold listBranchtags. destruct (negb isApi); [|apply emits_ret].
    apply emits_bind; [apply emits_fetchModuleBranchtags | intros l; apply emits_ret].
  - apply emits_bind; [apply emits_fetchTree | intros y].
    apply emits_bind; [apply emits_readTree | intros z; apply emits_ret].
Qed.

Lemma headers_stay_with_github_witness :
  exists more,
    requests (snd (Sample.run lexicalCompare ["std"%string] false
                     [Sample.repoInfo; Sample.branches; Sample.tags;
                      Sample.contents; Sample.readmeText])) = [] ++ more /\
    Forall (guarded Sample.gitHubHeaders Sample.std) more.
Proof.
  exact (headers_stay_with_github Sample.lookup Sample.gitHubHeaders lexicalCompare
           Sample.decode ["std"%string] false
           (Sample.world [Sample.repoInfo; Sample.branches; Sample.tags;
                          Sample.contents; Sample.readmeText])
           "std"%string VNull Sample.std eq_refl eq_refl).
Defined.

(** ** The stages of a run *)

Section Stages.
Variable fetchModule : string -> option ModuleReference.
Variable gitHubHeaders : Headers.
Variable localeCompare : string -> string -> Z.
Variable bufferToString : Value -> Value -> Exc Value.

(** A run that has its tree goes on with reading it. *)
Lemma metadata_after_tree segs isApi w m meta0 bt bts crumbs w2 tree0 errors0 w3 :
  reaches_tree fetchModule gitHubHeaders segs isApi w m meta0 bt bts crumbs w2 ->
  fetchTree gitHubHeaders m (buildPath segs) bt w2 = (inr (tree0, errors0), w3) ->
  fetchModuleMetadata fetchModule gitHubHeaders localeCompare bufferToString
    segs isApi w =
  Async.bind (readTree localeCompare bufferToString m tree0) (fun z =>
    Async.ret (Resolved (mkResolution meta0 bt bts segs crumbs (buildPath segs)
                           (fst (fst (fst z))) (snd (fst (fst z))) (snd (fst z))
                           (snd z) errors0))) w3.
Proof.
  intros Hreach Htree.
  rewrite (metadata_from_tree _ _ localeCompare bufferToString _ _ _ _ _ _ _ _ _ Hreach).
  now rewrite (bind_ok _ _ _ _ _ Htree).
Qed.

(** The tree request of a GitHub module that gets an ok answer. *)
Lemma fetchTree_ok m segs bt ref w2 resp rest tree0 :
  type m = "GitHub"%string ->
  Js.toString bt = inr ref ->
  replies w2 = Responded resp :: rest -> ok resp = true -> json resp = Some tree0 ->
  fetchTree gitHubHeaders m (buildPath segs) bt w2 =
    (inr (tree0, VNull),
     mkWorld rest (requests w2 ++ [contentsRequest gitHubHeaders m segs ref])).
Proof.
  intros Hty Href Hw Hok Hj. unfold fetchTree, requestHeaders, contentsRequest.
  rewrite Hty. change (String.eqb "GitHub" "GitHub") with true. cbv iota.
  rewrite Href, lift_ok_bind.
  rewrite (bind_ok _ _ _ _ _ (fetch_responded _ _ _ _ _ Hw)).
  rewrite Hok. unfold Async.bind, Async.getJson. now rewrite Hj.
Qed.

Lemma resolveBranchtag_given m (t : string) w :
  t <> ""%string ->
  resolveBranchtag gitHubHeaders m (VStr t) w = (inr (VStr t), w).
Proof.
  intros Ht. unfold resolveBranchtag. cbn [Js.truthy].
  apply String.eqb_neq in Ht. now rewrite Ht.
Qed.

End Stages.

(** ** Reading the tree *)

Section ReadTree.
Variable localeCompare : string -> string -> Z.
Variable bufferToString : Value -> Value -> Exc Value.

Lemma readTree_falsy m t w :
  Js.truthy t = false ->
  readTree localeCompare bufferToString m t w = (inr (t, None, VNull, VNull), w).
Proof. intros H. unfold readTree. now rewrite H. Qed.

Lemma readTree_other_provider m t w :
  type m <> "GitHub"%string -> Js.truthy t = true -> (forall l, t <> VArr l) ->
  readTree localeCompare bufferToString m t w = (inr (t, None, VNull, VNull), w).
Proof.
  intros Hty Ht Harr. unfold readTree. rewrite Ht.
  apply String.eqb_neq in Hty. rewrite Hty.
  destruct t; try reflexivity. now destruct (Harr l).
Qed.

Lemma truthy_not_nullish (v : Value) : Js.truthy v = true -> nullish v = false.
Proof. now destruct v. Qed.

Lemma readTree_file m file w c :
  type m = "GitHub"%string -> Js.truthy file = true -> (forall l, file <> VArr l) ->
  (if Js.truthy (prop "encoding" file)
   then bufferToString (prop "content" file) (prop "encoding" file)
   else inr (prop "content" file)) = inr c ->
  readTree localeCompare bufferToString m file w =
    (inr (file, None, c, prop "download_url" file), w).
Proof.
  intros Hty Ht Harr Hc. unfold readTree. rewrite Ht, Hty.
  change (String.eqb "GitHub" "GitHub") with true. cbv iota.
  pose proof (truthy_not_nullish file Ht) as Hn.
  assert (forall key, Js.getProp file key = inr (prop key file)) as Hget.
  { intros key. now rewrite getProp_prop, Hn. }
  destruct (Js.truthy (prop "encoding" file)) eqn:Enc;
    destruct file; try discriminate; try (now destruct (Harr l));
    unfold Async.bind, Async.lift, Async.ret; rewrite !Hget, Enc, ?Hget;
    (rewrite Hc || injection Hc as <-); reflexivity.
Qed.

Lemma entry_name_getProp (v : Value) (s : string) :
  entry_name v = Some s -> Js.getProp v "name" = inr (VStr s).
Proof.
  unfold entry_name. destruct (Js.getProp v "name") as [|[]]; try discriminate.
  now intros [= ->].
Qed.

Lemma findReadme_none (l : list Value) :
  Forall (fun v => entry_name v <> None /\ is_readme v = false) l ->
  findReadme l = inr VUndefined.
Proof.
  induction l as [|x l IH]; intros H; [reflexivity|].
  inversion H as [|? ? [Hn Hr] Hl]; subst. cbn [findReadme].
  unfold is_readme in Hr. destruct (entry_name x) as [s|] eqn:Es; [|congruence].
  now rewrite (entry_name_getProp x s Es), Hr, IH.
Qed.

Lemma findReadme_first (pre : list Value) (f : Value) (post : list Value) :
  Forall (fun v => entry_name v <> None /\ is_readme v = false) pre ->
  is_readme f = true ->
  findReadme (pre ++ f :: post) = inr f.
Proof.
  intros Hpre Hf. induction pre as [|x pre IH]; cbn [app findReadme].
  - unfold is_readme in Hf. destruct (entry_name f) as [s|] eqn:Es; [|discriminate].
    now rewrite (entry_name_getProp f s Es), Hf.
  - inversion Hpre as [|? ? [Hn Hr] Hl]; subst.
    unfold is_readme in Hr. destruct (entry_name x) as [s|] eqn:Es; [|congruence].
    now rewrite (entry_name_getProp x s Es), Hr, IH.
Qed.

Lemma is_readme_object (f : Value) :
  is_readme f = true -> exists fields, f = VObj fields.
Proof.
  unfold is_readme, entry_name. destruct f; try discriminate. eauto.
Qed.

Lemma readTree_listing_plain m l l' w :
  type m = "GitHub"%string ->
  sort (compareType localeCompare) l = inr l' ->
  Forall (fun v => entry_name v <> None /\ is_readme v = false) l' ->
  readTree localeCompare bufferToString m (VArr l) w =
    (inr (VArr l', None, VNull, VNull), w).
Proof.
  intros Hty Hs Hall. unfold readTree. cbn [Js.truthy]. rewrite Hty.
  change (String.eqb "GitHub" "GitHub") with true. cbv iota.
  unfold Async.bind, Async.lift. now rewrite Hs, (findReadme_none l' Hall).
Qed.

Lemma readTree_listing_readme m l pre f post target w :
  type m = "GitHub"%string ->
  sort (compareType localeCompare) l = inr (pre ++ f :: post) ->
  Forall (fun v => entry_name v <> None /\ is_readme v = false) pre ->
  is_readme f = true ->
  Js.toString (prop "download_url" f) = inr target ->
  readTree localeCompare bufferToString m (VArr l) w =
    Async.bind (Async.fetch target None) (fun resp =>
      Async.ret (VArr (pre ++ f :: post), Some (text resp), VNull, VNull)) w.
Proof.
  intros Hty Hs Hpre Hf Hu. unfold readTree. cbn [Js.truthy]. rewrite Hty.
  change (String.eqb "GitHub" "GitHub") with true. cbv iota.
  unfold Async.bind at 1, Async.lift at 1. rewrite Hs.
  unfold Async.bind at 1, Async.lift at 1. rewrite (findReadme_first pre f post Hpre Hf).
  destruct (is_readme_object f Hf) as [fields ->]. cbn [Js.truthy].
  unfold Js.getProp. rewrite lift_ok_bind. cbn [prop] in Hu.
  now rewrite Hu, lift_ok_bind.
Qed.

End ReadTree.

(** ** Whole runs *)

Lemma append_cancel_l (a x y : string) : (a ++ x)%string = (a ++ y)%string -> x = y.
Proof.
  induction a as [|c a IH]; simpl; [trivial|]. intros [= H]. now apply IH.
Qed.

Lemma append_eq_self (a b : string) : (a ++ b)%string = a -> b = ""%string.
Proof.
  intros H. assert (String.length (a ++ b) = String.length a) as Hl by now rewrite H.
  rewrite append_length in Hl. destruct b; [reflexivity | simpl in Hl; lia].
Qed.

Lemma repo_url_plain gitHubHeaders m (u : string) :
  url (mkRequest u None) = url (repoRequest gitHubHeaders m) ->
  headers (mkRequest u None) = None.
Proof. reflexivity. Qed.

Lemma repo_url_api gitHubHeaders m (c : ascii) (tail : string) (h : option Headers) :
  url (mkRequest ("https://api.github.com/repos/" ++ org m ++ "/" ++ repo m
                    ++ String c tail)%string h)
    = url (repoRequest gitHubHeaders m) ->
  headers (mkRequest ("https://api.github.com/repos/" ++ org m ++ "/" ++ repo m
                        ++ String c tail)%string h) = None.
Proof.
  unfold repoRequest. cbn [url]. intros [= H].
  apply (append_cancel_l (org m)) in H. injection H as H.
  apply append_eq_self in H. discriminate.
Qed.

Section Outcomes.
Variable fetchModule : string -> option ModuleReference.
Variable gitHubHeaders : Headers.
Variable localeCompare : string -> string -> Z.
Variable bufferToString : Value -> Value -> Exc Value.

(** X8: a branchtag written in segment 0 is the branchtag of the result as
    it stands, for every provider, and the run does not ask for the default
    branch: whatever it requests at the URL of the repository endpoint
    carries no headers, whereas the default-branch query carries the GitHub
    headers. *)
Theorem explicit_branchtag_used
        (segs : list string) (isApi : bool) (w : World)
        (moduleName t : string) (m : ModuleReference) :
  parseSegment0 segs = inr (moduleName, VStr t) ->
  fetchModule moduleName = Some m ->
  (forall r w',
     fetchModuleMetadata fetchModule gitHubHeaders localeCompare bufferToString
       segs isApi w = (inr (Resolved r), w') ->
     branchtag r = VStr t) /\
  (exists more,
     requests (snd (fetchModuleMetadata fetchModule gitHubHeaders localeCompare
                      bufferToString segs isApi w)) = requests w ++ more /\
     Forall (fun q => url q = url (repoRequest gitHubHeaders m) -> headers q = None)
            more).
Proof.
  intros Hp Hm.
  assert (t <> ""%string) as Ht.
  { destruct (parseSegment0_shape _ _ _ Hp) as (_ & _ & _ & [H | (t' & H & Hne & _)]);
      [discriminate | congruence]. }
  split.
  - intros r w' H.
    apply metadata_resolved in H
      as (n & b & m' & u & bt & w1 & bts & cr & w2 & t0 & e0 & w3 & t1 & r0 & c0 & s0
          & Hp' & _ & _ & H1 & _ & _ & _ & ->).
    rewrite Hp in Hp'. injection Hp' as <- <-.
    rewrite resolveBranchtag_given in H1 by exact Ht. now injection H1 as <- _.
  - rewrite (metadata_found _ _ _ _ _ _ _ _ _ _ Hp Hm).
    lazymatch goal with
    | |- context [snd (?c w)] =>
        assert (emits (fun q => url q = url (repoRequest gitHubHeaders m) ->
                                headers q = None) c) as H;
          [|exact (H w)]
    end.
    apply emits_bind; [apply emits_lift | intros url0].
    apply emits_bind; [|intros bt].
    { intros w0. rewrite resolveBranchtag_given by exact Ht.
      exists []. simpl. now rewrite app_nil_r. }
    apply emits_bind; [|intros x].
    { unfold listBranchtags. destruct (negb isApi); [|apply emits_ret].
      apply emits_bind; [|intros l; apply emits_ret].
      intros w0. unfold fetchModuleBranchtags, Async.bind, Async.lift, createBranchtagUrls.
      destruct (String.eqb (type m) "GitHub").
      - apply emits_fetchRefs.
        apply Forall_cons; [apply repo_url_api|].
        apply Forall_cons; [apply repo_url_api | apply Forall_nil].
      - destruct (String.eqb (type m) "GitLab").
        + apply emits_fetchRefs.
          apply Forall_cons; [apply repo_url_plain | apply Forall_nil].
        + exists []. simpl. now rewrite app_nil_r. }
    apply emits_bind; [|intros y].
    { unfold fetchTree, requestHeaders.
      destruct (String.eqb (type m) "GitHub").
      - apply emits_bind; [apply emits_lift | intros ref].
        apply emits_bind; [apply emits_fetch, repo_url_api | intros resp].
        destruct (ok resp);
          (apply emits_bind; [apply emits_getJson | intros data; apply emits_ret]).
      - destruct (String.eqb (type m) "GitLab"); [|apply emits_ret].
        apply emits_bind; [apply emits_lift | intros ref; apply emits_ret]. }
    apply emits_bind; [|intros z; apply emits_ret].
    unfold readTree.
    repeat first
      [ apply emits_ret | apply emits_lift
      | apply emits_fetch, repo_url_plain
      | apply emits_bind; [|intros ?]
      | match goal with
        | |- emits _ (if ?b then _ else _) => destruct b
        | |- emits _ (match ?x with _ => _ end) => destruct x
        end ].
Qed.

(** X9: for a GitLab module in API mode the run makes no request at all and
    its result is fixed by the segments and the lookup: the branchtag is the
    one of segment 0 ([null] when there is none), and the branch/tag list,
    the breadcrumbs, the tree, the README, the content, the source URL and
    the errors are all [null]. *)
Theorem gitlab_api_mode
        (segs : list string) (w : World)
        (moduleName : string) (branchtag0 : Value) (m : ModuleReference) :
  parseSegment0 segs = inr (moduleName, branchtag0) ->
  fetchModule moduleName = Some m ->
  type m = "GitLab"%string ->
  fetchModuleMetadata fetchModule gitHubHeaders localeCompare bufferToString
    segs true w =
  (inr (Resolved
          (mkResolution
             (mkMeta moduleName m ("https://gitlab.com/" ++ org m ++ "/" ++ repo m)%string)
             branchtag0 None segs None (buildPath segs)
             VNull None VNull VNull VNull)),
   w).
Proof.
  intros Hp Hm Hty. rewrite (metadata_found _ _ _ _ _ _ _ _ _ _ Hp Hm).
  unfold createRepoUrl, resolveBranchtag, listBranchtags, fetchTree, readTree.
  rewrite Hty. change (String.eqb "GitLab" "GitHub") with false.
  change (String.eqb "GitLab" "GitLab") with true. cbn [negb].
  destruct (parseSegment0_shape _ _ _ Hp) as (_ & _ & _ & [-> | (t & -> & _)]);
    [reflexivity|].
  now destruct (negb (Js.truthy (VStr t))).
Qed.

(** X10: the branch/tag list and the breadcrumbs of a result are [null]
    exactly in API mode. *)
Theorem api_mode_nulls
        (segs : list string) (isApi : bool) (w : World) (r : Resolution) (w' : World) :
  fetchModuleMetadata fetchModule gitHubHeaders localeCompare bufferToString
    segs isApi w = (inr (Resolved r), w') ->
  (branchtags r = None <-> isApi = true) /\
  (breadcrumbs r = None <-> isApi = true).
Proof.
  intros H.
  apply metadata_resolved in H
    as (n & b & m & u & bt & w1 & bts & cr & w2 & t0 & e0 & w3 & t1 & r0 & c0 & s0
        & _ & _ & _ & _ & H2 & _ & _ & ->).
  cbn [branchtags breadcrumbs]. unfold listBranchtags in H2. destruct isApi; cbn [negb] in H2.
  - apply ret_inv in H2 as [H2 _]. injection H2 as <- <-. tauto.
  - apply bind_inv in H2 as (l & wa & _ & H2). apply ret_inv in H2 as [H2 _].
    injection H2 as <- <-. split; split; discriminate.
Qed.

(** X17: for a GitHub module without a branchtag outside API mode, when the
    first three replies decode, the run reaches the tree request after
    exactly three requests, in this order: the repository, its branches, its
    tags; the branchtag is the [default_branch] of the first reply and the
    list is the names of the branches followed by those of the tags. *)
Theorem github_reaches_tree
        (segs : list string) (w : World) (moduleName : string) (m : ModuleReference)
        (r0 r1 r2 : Response) (rest : list Reply)
        (data bt : Value) (bs ts : list Value) :
  parseSegment0 segs = inr (moduleName, VNull) ->
  fetchModule moduleName = Some m ->
  type m = "GitHub"%string ->
  replies w = Responded r0 :: Responded r1 :: Responded r2 :: rest ->
  json r0 = Some data -> Js.getProp data "default_branch" = inr bt ->
  transformed "GitHub" r1 = inr bs -> transformed "GitHub" r2 = inr ts ->
  reaches_tree fetchModule gitHubHeaders segs false w m
    (mkMeta moduleName m ("https://github.com/" ++ org m ++ "/" ++ repo m)%string)
    bt (Some (bs ++ ts)) (Some (buildBreadcrumbs segs))
    (mkWorld rest
       (requests w ++
        [ repoRequest gitHubHeaders m;
          mkRequest ("https://api.github.com/repos/" ++ org m ++ "/" ++ repo m
                       ++ "/branches")%string (Some gitHubHeaders);
          mkRequest ("https://api.github.com/repos/" ++ org m ++ "/" ++ repo m
                       ++ "/tags")%string (Some gitHubHeaders) ])).
Proof.
  intros Hp Hm Hty Hw Hj Hd Hb Ht.
  exists moduleName, VNull, ("https://github.com/" ++ org m ++ "/" ++ repo m)%string,
    (mkWorld (Responded r1 :: Responded r2 :: rest)
       (requests w ++ [repoRequest gitHubHeaders m])).
  split; [exact Hp|]. split; [exact Hm|].
  split; [unfold createRepoUrl; now rewrite Hty|]. split; [reflexivity|]. split.
  - unfold resolveBranchtag, requestHeaders. rewrite Hty.
    change (String.eqb "GitHub" "GitHub") with true. cbn [Js.truthy negb].
    rewrite (bind_ok _ _ _ _ _ (fetch_responded _ _ _ _ _ Hw)).
    unfold Async.bind, Async.getJson, Async.ret, Async.lift. now rewrite Hj, Hd.
  - unfold listBranchtags. cbn [negb]. unfold fetchModuleBranchtags, createBranchtagUrls.
    rewrite Hty. change (String.eqb "GitHub" "GitHub") with true. cbv iota.
    unfold Async.bind at 1. unfold Async.bind at 1, Async.lift at 1.
    rewrite (fetchRefs_all "GitHub" (Some gitHubHeaders) _ [r1; r2] [bs; ts] [] _ rest);
      [| reflexivity | repeat constructor; assumption | reflexivity].
    unfold Async.ret. cbn [app concat map requests].
    now rewrite app_nil_r, <- app_assoc.
Qed.

(** X19: once the tree request is reached for a module that is not on
    GitHub, nothing more is requested and the run returns with the tree,
    the README, the content, the source URL and the errors all [null]. *)
Theorem no_tree_outside_github
        (segs : list string) (isApi : bool) (w : World)
        (m : ModuleReference) (meta0 : DenoModule) (bt : Value)
        (bts : option (list Value)) (crumbs : option (list (list string)))
        (w2 : World) :
  reaches_tree fetchModule gitHubHeaders segs isApi w m meta0 bt bts crumbs w2 ->
  type m <> "GitHub"%string ->
  fetchModuleMetadata fetchModule gitHubHeaders localeCompare bufferToString
    segs isApi w =
  (inr (Resolved (mkResolution meta0 bt bts segs crumbs (buildPath segs)
                    VNull None VNull VNull VNull)),
   w2).
Proof.
  intros Hreach Hty.
  rewrite (metadata_from_tree _ _ localeCompare bufferToString _ _ _ _ _ _ _ _ _ Hreach).
  destruct Hreach as (n & bt0 & u & w1 & Hp & _ & Hu & _ & H1 & _).
  unfold fetchTree. unfold resolveBranchtag in H1. unfold createRepoUrl in Hu.
  apply String.eqb_neq in Hty. rewrite Hty in H1, Hu |- *.
  destruct (String.eqb (type m) "GitLab"); [|discriminate].
  assert (bt = bt0) as ->.
  { destruct (negb (Js.truthy bt0)); apply ret_inv in H1 as [H1 _]; congruence. }
  now destruct (parseSegment0_shape _ _ _ Hp) as (_ & _ & _ & [-> | (t & -> & _)]).
Qed.

End Outcomes.

Section Trees.
Variable fetchModule : string -> option ModuleReference.
Variable gitHubHeaders : Headers.
Variable localeCompare : string -> string -> Z.
Variable bufferToString : Value -> Value -> Exc Value.

(** The run of a GitHub module whose tree request, made for the text [ref]
    of the branchtag, gets an ok answer that decodes to [tree0]. *)
Lemma metadata_tree_ok segs isApi w m meta0 bt bts crumbs w2 ref resp rest tree0 :
  reaches_tree fetchModule gitHubHeaders segs isApi w m meta0 bt bts crumbs w2 ->
  type m = "GitHub"%string ->
  Js.toString bt = inr ref ->
  replies w2 = Responded resp :: rest -> ok resp = true -> json resp = Some tree0 ->
  fetchModuleMetadata fetchModule gitHubHeaders localeCompare bufferToString
    segs isApi w =
  Async.bind (readTree localeCompare bufferToString m tree0) (fun z =>
    Async.ret (Resolved (mkResolution meta0 bt bts segs crumbs (buildPath segs)
                           (fst (fst (fst z))) (snd (fst (fst z))) (snd (fst z))
                           (snd z) VNull)))
    (mkWorld rest (requests w2 ++ [contentsRequest gitHubHeaders m segs ref])).
Proof.
  intros Hreach Hty Href Hw Hok Hj.
  apply (metadata_after_tree _ _ _ _ _ _ _ _ _ _ _ _ _ _ _ _ Hreach).
  now apply (fetchTree_ok gitHubHeaders m segs bt ref w2 resp rest tree0).
Qed.

(** X11: when the tree request of a GitHub module, made for the text [ref]
    of the branchtag, is answered ok with a single file (a true value that
    is not an array), and reading the content of the file succeeds with [c]
    (the [content] decoded with the [encoding] when the file has one, the
    [content] as it stands otherwise), then the result carries the file as
    its tree, [c] as its content and the [download_url] of the file as its
    source URL; no README is looked for and nothing more is requested. *)
Theorem file_content
        (segs : list string) (isApi : bool) (w : World)
        (m : ModuleReference) (meta0 : DenoModule) (bt : Value)
        (bts : option (list Value)) (crumbs : option (list (list string)))
        (w2 : World) (ref : string) (resp : Response) (rest : list Reply)
        (file c : Value) :
  reaches_tree fetchModule gitHubHeaders segs isApi w m meta0 bt bts crumbs w2 ->
  type m = "GitHub"%string ->
  Js.toString bt = inr ref ->
  replies w2 = Responded resp :: rest -> ok resp = true -> json resp = Some file ->
  Js.truthy file = true -> (forall l, file <> VArr l) ->
  (if Js.truthy (prop "encoding" file)
   then bufferToString (prop "content" file) (prop "encoding" file)
   else inr (prop "content" file)) = inr c ->
  fetchModuleMetadata fetchModule gitHubHeaders localeCompare bufferToString
    segs isApi w =
  (inr (Resolved (mkResolution meta0 bt bts segs crumbs (buildPath segs)
                    file None c (prop "download_url" file) VNull)),
   mkWorld rest (requests w2 ++ [contentsRequest gitHubHeaders m segs ref])).
Proof.
  intros Hreach Hty Href Hw Hok Hj Ht Harr Hc.
  rewrite (metadata_tree_ok _ _ _ _ _ _ _ _ _ _ _ _ _ Hreach Hty Href Hw Hok Hj).
  now rewrite (bind_ok _ _ _ _ _ (readTree_file _ _ _ _ _ c Hty Ht Harr Hc)).
Qed.

(** X18: when the tree request of a GitHub module, made for the text [ref]
    of the branchtag, is answered ok with a value that counts as false
    ([null], [false], [0], the empty string), that value is the tree of the
    result and the README, the content, the source URL and the errors are
    [null]; nothing more is requested. *)
Theorem falsy_tree
        (segs : list string) (isApi : bool) (w : World)
        (m : ModuleReference) (meta0 : DenoModule) (bt : Value)
        (bts : option (list Value)) (crumbs : option (list (list string)))
        (w2 : World) (ref : string) (resp : Response) (rest : list Reply)
        (tree0 : Value) :
  reaches_tree fetchModule gitHubHeaders segs isApi w m meta0 bt bts crumbs w2 ->
  type m = "GitHub"%string ->
  Js.toString bt = inr ref ->
  replies w2 = Responded resp :: rest -> ok resp = true -> json resp = Some tree0 ->
  Js.truthy tree0 = false ->
  fetchModuleMetadata fetchModule gitHubHeaders localeCompare bufferToString
    segs isApi w =
  (inr (Resolved (mkResolution meta0 bt bts segs crumbs (buildPath segs)
                    tree0 None VNull VNull VNull)),
   mkWorld rest (requests w2 ++ [contentsRequest gitHubHeaders m segs ref])).
Proof.
  intros Hreach Hty Href Hw Hok Hj Ht.
  rewrite (metadata_tree_ok _ _ _ _ _ _ _ _ _ _ _ _ _ Hreach Hty Href Hw Hok Hj).
  now rewrite (bind_ok _ _ _ _ _ (readTree_falsy _ _ _ _ _ Ht)).
Qed.

(** X12: under a consistent collation, when the tree request of a GitHub
    module, made for the text [ref] of the branchtag, is answered ok with a
    listing whose entries all have a string [type] and a string [name],
    none of them called [readme.md] in any case of the letters, the result
    carries the listing in its stable sorted order and a [null] README,
    content, source URL and errors, and nothing is requested after the
    tree; this holds for the empty listing. *)
Theorem listing_without_readme
        (segs : list string) (isApi : bool) (w : World)
        (m : ModuleReference) (meta0 : DenoModule) (bt : Value)
        (bts : option (list Value)) (crumbs : option (list (list string)))
        (w2 : World) (ref : string) (resp : Response) (rest : list Reply)
        (l : list Value) :
  consistent_collation localeCompare ->
  reaches_tree fetchModule gitHubHeaders segs isApi w m meta0 bt bts crumbs w2 ->
  type m = "GitHub"%string ->
  Js.toString bt = inr ref ->
  replies w2 = Responded resp :: rest -> ok resp = true ->
  json resp = Some (VArr l) ->
  Forall (fun v => entry_type v <> None) l ->
  Forall (fun v => entry_name v <> None /\ is_readme v = false) l ->
  exists l',
    sort (compareType localeCompare) l = inr l' /\
    Permutation l l' /\
    StronglySorted (type_le localeCompare) l' /\
    (forall t, filter (has_type t) l' = filter (has_type t) l) /\
    fetchModuleMetadata fetchModule gitHubHeaders localeCompare bufferToString
      segs isApi w =
    (inr (Resolved (mkResolution meta0 bt bts segs crumbs (buildPath segs)
                      (VArr l') None VNull VNull VNull)),
     mkWorld rest (requests w2 ++ [contentsRequest gitHubHeaders m segs ref])).
Proof.
  intros Hlc Hreach Hty Href Hw Hok Hj Htyped Hall.
  destruct (sort_typed localeCompare Hlc l Htyped) as (l' & Hs & Hperm & Hsorted & Hst).
  exists l'. repeat (split; [assumption|]).
  rewrite (metadata_tree_ok _ _ _ _ _ _ _ _ _ _ _ _ _ Hreach Hty Href Hw Hok Hj).
  pose proof (Permutation_Forall Hperm Hall) as Hall'.
  now rewrite (bind_ok _ _ _ _ _ (readTree_listing_plain _ _ _ _ _ _ Hty Hs Hall')).
Qed.

(** X13: under a consistent collation, when the tree request of a GitHub
    module, made for the text [ref] of the branchtag, is answered ok with a
    listing whose entries all have a string [type], and the sorted listing
    is [pre ++ f :: post] where the entries of [pre] have string names other
    than [readme.md] and [f] is called [readme.md] in some case of the
    letters and has the string [target] as its [download_url], then [f] is
    the README: [target] is requested without headers, and the text of the
    answer, whatever its status, is the README of the result; when that
    request is rejected, so is the whole run. *)
Theorem listing_with_readme
        (segs : list string) (isApi : bool) (w : World)
        (m : ModuleReference) (meta0 : DenoModule) (bt : Value)
        (bts : option (list Value)) (crumbs : option (list (list string)))
        (w2 : World) (ref : string) (resp : Response) (rest : list Reply)
        (l pre : list Value) (f : Value) (post : list Value) (target : string) :
  consistent_collation localeCompare ->
  reaches_tree fetchModule gitHubHeaders segs isApi w m meta0 bt bts crumbs w2 ->
  type m = "GitHub"%string ->
  Js.toString bt = inr ref ->
  replies w2 = Responded resp :: rest -> ok resp = true ->
  json resp = Some (VArr l) ->
  Forall (fun v => entry_type v <> None) l ->
  sort (compareType localeCompare) l = inr (pre ++ f :: post) ->
  Forall (fun v => entry_name v <> None /\ is_readme v = false) pre ->
  is_readme f = true ->
  prop "download_url" f = VStr target ->
  let log :=
    requests w2 ++
    [ contentsRequest gitHubHeaders m segs ref; mkRequest target None ] in
  (forall answer rest',
     rest = Responded answer :: rest' ->
     fetchModuleMetadata fetchModule gitHubHeaders localeCompare bufferToString
       segs isApi w =
     (inr (Resolved (mkResolution meta0 bt bts segs crumbs (buildPath segs)
                       (VArr (pre ++ f :: post)) (Some (text answer))
                       VNull VNull VNull)),
      mkWorld rest' log)) /\
  (forall rest',
     rest = Rejected :: rest' ->
     fetchModuleMetadata fetchModule gitHubHeaders localeCompare bufferToString
       segs isApi w = (inl NetworkError, mkWorld rest' log)).
Proof.
  intros _ Hreach Hty Href Hw Hok Hj _ Hs Hpre Hf Hu log.
  rewrite (metadata_tree_ok _ _ _ _ _ _ _ _ _ _ _ _ _ Hreach Hty Href Hw Hok Hj).
  assert (Js.toString (prop "download_url" f) = inr target) as Hu'
    by now rewrite Hu.
  subst log. split.
  - intros answer rest' ->. unfold Async.bind at 1.
    rewrite (readTree_listing_readme _ _ _ _ _ _ _ _ _ Hty Hs Hpre Hf Hu').
    unfold Async.bind, Async.fetch, Async.ret.
    cbn [replies requests fst snd]. now rewrite <- app_assoc.
  - intros rest' ->. unfold Async.bind at 1.
    rewrite (readTree_listing_readme _ _ _ _ _ _ _ _ _ Hty Hs Hpre Hf Hu').
    unfold Async.bind, Async.fetch.
    cbn [replies requests fst snd]. now rewrite <- app_assoc.
Qed.

End Trees.

(** ** The properties on sample runs *)

(** An API-mode run on the sample registry with the branchtag [v1] reaches
    the tree request at once. *)
Lemma sample_reach (rest : list string) (l : list Reply) :
  reaches_tree Sample.lookup Sample.gitHubHeaders ("std@v1"%string :: rest) true
    (Sample.world l) Sample.std
    (mkMeta "std" Sample.std "https://github.com/denoland/deno_std")
    (VStr "v1") None None (Sample.world l).
Proof.
  exists "std"%string, (VStr "v1"), "https://github.com/denoland/deno_std"%string,
    (Sample.world l).
  repeat split; reflexivity.
Qed.

Lemma explicit_branchtag_used_witness :
  exists more,
    requests (snd (Sample.run lexicalCompare ["std@v1"; "http"]%string false
                     [Sample.branches; Sample.tags; Sample.notFound])) = [] ++ more /\
    Forall (fun q => url q = url (repoRequest Sample.gitHubHeaders Sample.std) ->
                     headers q = None) more.
Proof.
  exact (proj2 (explicit_branchtag_used Sample.lookup Sample.gitHubHeaders
                  lexicalCompare Sample.decode ["std@v1"; "http"]%string false
                  (Sample.world [Sample.branches; Sample.tags; Sample.notFound])
                  "std"%string "v1"%string Sample.std eq_refl eq_refl)).
Defined.

Lemma gitlab_api_mode_witness :
  exists r,
    Sample.run lexicalCompare ["ink@1.3"; "share"]%string true [Sample.contents] =
      (inr (Resolved r), Sample.world [Sample.contents]) /\
    branchtag r = VStr "1.3" /\ tree r = VNull /\ path r = "/share"%string.
Proof.
  eexists. split.
  - exact (gitlab_api_mode Sample.lookup Sample.gitHubHeaders lexicalCompare
             Sample.decode ["ink@1.3"; "share"]%string
             (Sample.world [Sample.contents]) "ink"%string (VStr "1.3") Sample.ink
             eq_refl eq_refl eq_refl).
  - repeat split.
Defined.

Lemma api_mode_nulls_witness :
  exists r w',
    Sample.run lexicalCompare ["std@v1"%string] true [Sample.notFound] =
      (inr (Resolved r), w') /\
    branchtags r = None /\ breadcrumbs r = None.
Proof.
  assert (Sample.run lexicalCompare ["std@v1"%string] true [Sample.notFound] = _) as H
    by (vm_compute; reflexivity).
  destruct (api_mode_nulls Sample.lookup Sample.gitHubHeaders lexicalCompare
              Sample.decode _ _ _ _ _ H) as [H1 H2].
  eexists. eexists. split; [exact H|]. split; [now apply H1 | now apply H2].
Defined.

Lemma github_reaches_tree_witness :
  exists w2,
    reaches_tree Sample.lookup Sample.gitHubHeaders ["std"; "http"]%string false
      (Sample.world [Sample.repoInfo; Sample.branches; Sample.tags; Sample.notFound])
      Sample.std
      (mkMeta "std" Sample.std "https://github.com/denoland/deno_std")
      (VStr "main") (Some ([VStr "main"; VStr "v1"] ++ [VStr "v1"]))
      (Some (buildBreadcrumbs ["std"; "http"]%string)) w2 /\
    replies w2 = [Sample.notFound] /\ List.length (requests w2) = 3.
Proof.
  eexists. split.
  - exact (github_reaches_tree Sample.lookup Sample.gitHubHeaders
             ["std"; "http"]%string
             (Sample.world [Sample.repoInfo; Sample.branches; Sample.tags;
                            Sample.notFound])
             "std"%string Sample.std _ _ _ [Sample.notFound]
             (VObj [("id"%string, VNum false "1"); ("default_branch"%string, VStr "main")])
             (VStr "main") [VStr "main"; VStr "v1"] [VStr "v1"]
             eq_refl eq_refl eq_refl eq_refl eq_refl eq_refl eq_refl eq_refl).
  - split; reflexivity.
Defined.

Lemma no_tree_outside_github_witness :
  exists r w2,
    Sample.run lexicalCompare ["ink"%string] false [Fixture.gitlabRefs; Sample.contents] =
      (inr (Resolved r), w2) /\
    replies w2 = [Sample.contents] /\
    branchtags r = Some [VStr "master"; VStr "v1"; VStr "v2"] /\
    tree r = VNull /\ errors r = VNull.
Proof.
  eexists. eexists. split.
  - refine (no_tree_outside_github Sample.lookup Sample.gitHubHeaders lexicalCompare
              Sample.decode ["ink"%string] false
              (Sample.world [Fixture.gitlabRefs; Sample.contents])
              Sample.ink
              (mkMeta "ink" Sample.ink "https://gitlab.com/inkscape/inkscape")
              VNull (Some [VStr "master"; VStr "v1"; VStr "v2"])
              (Some (buildBreadcrumbs ["ink"%string]))
              (mkWorld [Sample.contents]
                 [mkRequest "https://gitlab.com/inkscape/inkscape/refs" None]) _ _);
      [|discriminate].
    exists "ink"%string, VNull, "https://gitlab.com/inkscape/inkscape"%string,
      (Sample.world [Fixture.gitlabRefs; Sample.contents]).
    repeat split; reflexivity.
  - repeat split.
Defined.

Lemma file_content_witness :
  exists r w',
    fetchModuleMetadata Sample.lookup Sample.gitHubHeaders lexicalCompare
      Fixture.decode ["std@v1"; "mod.ts"]%string true
      (Sample.world [Sample.jsonReply true Fixture.encodedFile]) =
      (inr (Resolved r), w') /\
    content r = VStr "decoded(base64):ZXhwb3J0IHt9Ow==" /\
    sourceUrl r = VStr "https://raw.example/mod.ts" /\
    readme r = None /\ replies w' = [].
Proof.
  eexists. eexists. split.
  - refine (file_content Sample.lookup Sample.gitHubHeaders lexicalCompare
              Fixture.decode _ _ _ _ _ _ _ _ _ "v1"%string
              (mkResponse true "" (Some Fixture.encodedFile)) []
              Fixture.encodedFile _
              (sample_reach ["mod.ts"%string]
                 [Sample.jsonReply true Fixture.encodedFile])
              eq_refl eq_refl eq_refl eq_refl eq_refl eq_refl _ eq_refl).
    discriminate.
  - repeat split.
Defined.

Lemma falsy_tree_witness :
  exists r w',
    Sample.run lexicalCompare ["std@v1"; "gone"]%string true
      [Sample.jsonReply true VNull] = (inr (Resolved r), w') /\
    tree r = VNull /\ errors r = VNull /\ readme r = None.
Proof.
  eexists. eexists. split.
  - exact (falsy_tree Sample.lookup Sample.gitHubHeaders lexicalCompare
             Sample.decode _ _ _ _ _ _ _ _ _ "v1"%string
             (mkResponse true "" (Some VNull)) [] VNull
             (sample_reach ["gone"%string] [Sample.jsonReply true VNull])
             eq_refl eq_refl eq_refl eq_refl eq_refl eq_refl).
  - repeat split.
Defined.

Lemma listing_without_readme_witness :
  exists l',
    sort (compareType lexicalCompare) Fixture.bare = inr l' /\
    l' = [Sample.entry "http" "dir"; Sample.entry "mod.ts" "file"] /\
    Sample.run lexicalCompare ["std@v1"%string] true
      [Sample.jsonReply true (VArr Fixture.bare); Sample.readmeText] =
    (inr (Resolved (mkResolution
                      (mkMeta "std" Sample.std "https://github.com/denoland/deno_std")
                      (VStr "v1") None ["std@v1"%string] None "/"
                      (VArr l') None VNull VNull VNull)),
     mkWorld [Sample.readmeText]
       [contentsRequest Sample.gitHubHeaders Sample.std ["std@v1"%string] "v1"]).
Proof.
  assert (Forall (fun v => entry_type v <> None) Fixture.bare) as Htyped.
  { repeat (apply Forall_cons; [discriminate|]). apply Forall_nil. }
  assert (Forall (fun v => entry_name v <> None /\ is_readme v = false) Fixture.bare)
    as Hnamed.
  { repeat (apply Forall_cons; [split; [discriminate | reflexivity]|]).
    apply Forall_nil. }
  destruct (listing_without_readme Sample.lookup Sample.gitHubHeaders lexicalCompare
              Sample.decode ["std@v1"%string] true
              (Sample.world [Sample.jsonReply true (VArr Fixture.bare);
                             Sample.readmeText])
              Sample.std
              (mkMeta "std" Sample.std "https://github.com/denoland/deno_std")
              (VStr "v1") None None
              (Sample.world [Sample.jsonReply true (VArr Fixture.bare);
                             Sample.readmeText])
              "v1"%string
              (mkResponse true "" (Some (VArr Fixture.bare))) [Sample.readmeText]
              Fixture.bare
              lexicalCompare_consistent
              (sample_reach []
                 [Sample.jsonReply true (VArr Fixture.bare); Sample.readmeText])
              eq_refl eq_refl eq_refl eq_refl eq_refl Htyped Hnamed)
    as (l' & Hs & _ & _ & _ & Hrun).
  exists l'. split; [exact Hs|]. split; [|exact Hrun].
  vm_compute in Hs. now injection Hs as <-.
Defined.

Lemma listing_with_readme_witness :
  exists r w',
    Sample.run lexicalCompare ["std@v1"%string] true
      [Sample.jsonReply true (VArr Fixture.shouting); Sample.readmeText] =
      (inr (Resolved r), w') /\
    readme r = Some "# std"%string /\
    requests w' =
      [ contentsRequest Sample.gitHubHeaders Sample.std ["std@v1"%string] "v1";
        mkRequest "https://raw.example/ReadMe.MD" None ].
Proof.
  eexists. eexists. split.
  - refine (proj1 (listing_with_readme Sample.lookup Sample.gitHubHeaders
                     lexicalCompare Sample.decode _ _ _ _ _ _ _ _ _ "v1"%string
                     (mkResponse true "" (Some (VArr Fixture.shouting)))
                     [Sample.readmeText]
                     Fixture.shouting [Sample.entry "zlib" "dir"]
                     (Sample.entry "ReadMe.MD" "file") []
                     "https://raw.example/ReadMe.MD"%string
                     lexicalCompare_consistent
                     (sample_reach []
                        [Sample.jsonReply true (VArr Fixture.shouting);
                         Sample.readmeText])
                     eq_refl eq_refl eq_refl eq_refl eq_refl _ eq_refl
                     _ eq_refl eq_refl) (mkResponse true "# std" None) [] eq_refl).
    + repeat (apply Forall_cons; [discriminate|]). apply Forall_nil.
    + apply Forall_cons; [split; [discriminate | reflexivity] | apply Forall_nil].
  - split; reflexivity.
Defined.

(** ** How many requests a run makes *)

Lemma at_most_zero_ret {A : Type} (a : A) : at_most 0 (Async.ret a).
Proof. intros w. exists []. simpl. now rewrite app_nil_r. Qed.

Lemma at_most_zero_throw {A : Type} (e : exn) : at_most 0 (@Async.throw A e).
Proof. intros w. exists []. simpl. now rewrite app_nil_r. Qed.

Lemma at_most_zero_lift {A : Type} (c : Exc A) : at_most 0 (Async.lift c).
Proof. intros w. exists []. simpl. now rewrite app_nil_r. Qed.

Lemma at_most_zero_getJson (r : Response) : at_most 0 (Async.getJson r).
Proof.
  unfold Async.getJson.
  destruct (json r); [apply at_most_zero_ret | apply at_most_zero_throw].
Qed.

Lemma at_most_one_fetch (u : string) (h : option Headers) :
  at_most 1 (Async.fetch u h).
Proof.
  intros w. exists [mkRequest u h]. unfold Async.fetch.
  destruct (replies w) as [|[|r] rest]; simpl; split; auto.
Qed.

Lemma at_most_bind {A B : Type} (a b : nat) (c : M A) (k : A -> M B) :
  at_most a c -> (forall x, at_most b (k x)) -> at_most (a + b) (Async.bind c k).
Proof.
  intros Hc Hk w. unfold Async.bind.
  destruct (Hc w) as (m1 & H1 & L1).
  destruct (c w) as [[e|x] w1]; simpl in *.
  - exists m1. split; [exact H1 | lia].
  - destruct (Hk x w1) as (m2 & H2 & L2).
    exists (m1 ++ m2). rewrite H2, H1, app_assoc. split; [reflexivity|].
    rewrite length_app. lia.
Qed.

Lemma at_most_weaken {A : Type} (a b : nat) (c : M A) :
  a <= b -> at_most a c -> at_most b c.
Proof.
  intros Hab Hc w. destruct (Hc w) as (more & H & L). exists more. split; [exact H | lia].
Qed.

Lemma at_most_fetchRefs ty h urls refs :
  at_most (List.length urls) (fetchRefs ty h urls refs).
Proof.
  revert refs. induction urls as [|u urls IH]; intros refs; cbn [fetchRefs List.length].
  - apply at_most_zero_ret.
  - apply (at_most_bind 1 (List.length urls)); [apply at_most_one_fetch | intros resp].
    apply (at_most_bind 0); [apply at_most_zero_getJson | intros data].
    apply (at_most_bind 0); [apply at_most_zero_lift | intros out]. apply IH.
Qed.

Lemma at_most_fetchModuleBranchtags gitHubHeaders m :
  at_most 2 (fetchModuleBranchtags gitHubHeaders m).
Proof.
  intros w. unfold fetchModuleBranchtags, Async.bind, Async.lift, createBranchtagUrls.
  destruct (String.eqb (type m) "GitHub").
  - apply (at_most_fetchRefs _ _ [_; _]).
  - destruct (String.eqb (type m) "GitLab").
    + apply (at_most_weaken 1 2); [lia|]. apply (at_most_fetchRefs _ _ [_]).
    + exists []. simpl. rewrite app_nil_r. split; [reflexivity | lia].
Qed.

Lemma at_most_resolveBranchtag gitHubHeaders m bt0 :
  at_most 1 (resolveBranchtag gitHubHeaders m bt0).
Proof.
  unfold resolveBranchtag.
  destruct (negb (Js.truthy bt0));
    [|apply (at_most_weaken 0 1); [lia | apply at_most_zero_ret]].
  destruct (String.eqb (type m) "GitHub").
  - apply (at_most_bind 1 0); [apply at_most_one_fetch | intros resp].
    apply (at_most_bind 0 0); [apply at_most_zero_getJson | intros data].
    apply at_most_zero_lift.
  - apply (at_most_weaken 0 1); [lia|].
    destruct (String.eqb (type m) "GitLab"); apply at_most_zero_ret.
Qed.

Lemma at_most_listBranchtags gitHubHeaders m segs isApi :
  at_most 2 (listBranchtags gitHubHeaders m segs isApi).
Proof.
  unfold listBranchtags.
  destruct (negb isApi); [|apply (at_most_weaken 0 2); [lia | apply at_most_zero_ret]].
  apply (at_most_bind 2 0); [apply at_most_fetchModuleBranchtags | intros l].
  apply at_most_zero_ret.
Qed.

Lemma at_most_fetchTree gitHubHeaders m p bt :
  at_most 1 (fetchTree gitHubHeaders m p bt).
Proof.
  unfold fetchTree.
  destruct (String.eqb (type m) "GitHub").
  - apply (at_most_bind 0 1); [apply at_most_zero_lift | intros ref].
    apply (at_most_bind 1 0); [apply at_most_one_fetch | intros resp].
    destruct (ok resp);
      (apply (at_most_bind 0 0); [apply at_most_zero_getJson | intros data];
       apply at_most_zero_ret).
  - apply (at_most_weaken 0 1); [lia|].
    destruct (String.eqb (type m) "GitLab"); [|apply at_most_zero_ret].
    apply (at_most_bind 0 0); [apply at_most_zero_lift | intros ref].
    apply at_most_zero_ret.
Qed.

Lemma at_most_readTree localeCompare bufferToString m t :
  at_most 1 (readTree localeCompare bufferToString m t).
Proof.
  unfold readTree.
  destruct (Js.truthy t); [|apply (at_most_weaken 0 1); [lia | apply at_most_zero_ret]].
  assert (forall file : Value,
            at_most 1
              (if String.eqb (type m) "GitHub"
               then Async.bind (Async.lift (Js.getProp file "encoding")) (fun enc =>
                    Async.bind
                      (if Js.truthy enc
                       then Async.bind (Async.lift (Js.getProp file "content"))
                              (fun raw => Async.lift (bufferToString raw enc))
                       else Async.lift (Js.getProp file "content")) (fun c =>
                    Async.bind (Async.lift (Js.getProp file "download_url")) (fun u =>
                    Async.ret (file, @None string, c, u))))
               else Async.ret (file, @None string, VNull, VNull))) as Hfile.
  { intros file. apply (at_most_weaken 0 1); [lia|].
    destruct (String.eqb (type m) "GitHub"); [|apply at_most_zero_ret].
    apply (at_most_bind 0 0); [apply at_most_zero_lift | intros enc].
    apply (at_most_bind 0 0); [|intros c].
    - destruct (Js.truthy enc); [|apply at_most_zero_lift].
      apply (at_most_bind 0 0); [apply at_most_zero_lift | intros raw].
      apply at_most_zero_lift.
    - apply (at_most_bind 0 0); [apply at_most_zero_lift | intros u].
      apply at_most_zero_ret. }
  destruct t; try apply Hfile.
  apply (at_most_bind 0 1); [apply at_most_zero_lift | intros sorted].
  destruct (String.eqb (type m) "GitHub");
    [|apply (at_most_weaken 0 1); [lia | apply at_most_zero_ret]].
  apply (at_most_bind 0 1); [apply at_most_zero_lift | intros file].
  destruct (Js.truthy file); [|apply (at_most_weaken 0 1); [lia | apply at_most_zero_ret]].
  apply (at_most_bind 0 1); [apply at_most_zero_lift | intros u].
  apply (at_most_bind 0 1); [apply at_most_zero_lift | intros target].
  apply (at_most_bind 1 0); [apply at_most_one_fetch | intros resp].
  apply at_most_zero_ret.
Qed.

(** X20: whatever the segments, the registry and the replies, a run of
    [fetchModuleMetadata] makes at most five requests (the repository, the
    branches, the tags, the tree and the README), and at most two in API
    mode when segment 0 names a branchtag. *)
Theorem at_most_five_requests
        (fetchModule : string -> option ModuleReference) (gitHubHeaders : Headers)
        (localeCompare : string -> string -> Z)
        (bufferToString : Value -> Value -> Exc Value)
        (segs : list string) (isApi : bool) (w : World) :
  (exists more,
     requests (snd (fetchModuleMetadata fetchModule gitHubHeaders localeCompare
                      bufferToString segs isApi w)) = requests w ++ more /\
     List.length more <= 5) /\
  (forall moduleName t,
     parseSegment0 segs = inr (moduleName, VStr t) -> isApi = true ->
     exists more,
       requests (snd (fetchModuleMetadata fetchModule gitHubHeaders localeCompare
                        bufferToString segs isApi w)) = requests w ++ more /\
       List.length more <= 2).
Proof.
  assert (forall moduleName branchtag0 m a b,
            parseSegment0 segs = inr (moduleName, branchtag0) ->
            fetchModule moduleName = Some m ->
            at_most a (resolveBranchtag gitHubHeaders m branchtag0) ->
            at_most b (listBranchtags gitHubHeaders m segs isApi) ->
            exists more,
              requests (snd (fetchModuleMetadata fetchModule gitHubHeaders
                               localeCompare bufferToString segs isApi w)) =
                requests w ++ more /\
              List.length more <= a + (b + 2)) as Hfound.
  { intros moduleName branchtag0 m a b Hp Hm Ha Hb.
    rewrite (metadata_found _ _ _ _ _ _ _ _ _ _ Hp Hm).
    lazymatch goal with
    | |- context [snd (?c w)] => assert (at_most (0 + (a + (b + (1 + (1 + 0))))) c) as H
    end.
    { apply at_most_bind; [apply at_most_zero_lift | intros url0].
      apply at_most_bind; [exact Ha | intros bt].
      apply at_most_bind; [exact Hb | intros x].
      apply at_most_bind; [apply at_most_fetchTree | intros y].
      apply at_most_bind; [apply at_most_readTree | intros z].
      apply at_most_zero_ret. }
    destruct (H w) as (more & E & L). exists more. split; [exact E | lia]. }
  assert (forall n,
            (forall moduleName branchtag0 m,
               parseSegment0 segs = inr (moduleName, branchtag0) ->
               fetchModule moduleName = Some m ->
               exists more,
                 requests (snd (fetchModuleMetadata fetchModule gitHubHeaders
                                  localeCompare bufferToString segs isApi w)) =
                   requests w ++ more /\
                 List.length more <= n) ->
            exists more,
              requests (snd (fetchModuleMetadata fetchModule gitHubHeaders
                               localeCompare bufferToString segs isApi w)) =
                requests w ++ more /\
              List.length more <= n) as Hall.
  { intros n Hn.
    destruct (parseSegment0 segs) as [e|[moduleName branchtag0]] eqn:Hp.
    - exists []. unfold fetchModuleMetadata, Async.bind, Async.lift. rewrite Hp.
      simpl. rewrite app_nil_r. split; [reflexivity | lia].
    - destruct (fetchModule moduleName) as [m|] eqn:Hm.
      + exact (Hn _ _ _ eq_refl Hm).
      + exists []. rewrite (metadata_not_found _ _ _ _ _ _ _ _ _ Hp Hm).
        simpl. rewrite app_nil_r. split; [reflexivity | lia]. }
  split.
  - apply Hall. intros moduleName branchtag0 m Hp Hm.
    apply (Hfound moduleName branchtag0 m 1 2 Hp Hm).
    + apply at_most_resolveBranchtag.
    + apply at_most_listBranchtags.
  - intros moduleName t Hp ->. apply Hall. intros n b m Hp' Hm.
    rewrite Hp in Hp'. injection Hp' as <- <-.
    apply (Hfound moduleName (VStr t) m 0 0 Hp Hm).
    + intros w0. exists [].
      destruct (parseSegment0_shape _ _ _ Hp)
        as (_ & _ & _ & [H | (t' & [= <-] & Hne & _)]); [discriminate|].
      rewrite resolveBranchtag_given by exact Hne.
      simpl. rewrite app_nil_r. split; [reflexivity | lia].
    + unfold listBranchtags. cbn [negb]. apply at_most_zero_ret.
Qed.

Lemma at_most_five_requests_witness :
  exists more,
    requests (snd (Sample.run lexicalCompare ["std@v1"%string] true
                     [Sample.contents; Sample.readmeText])) = [] ++ more /\
    List.length more <= 2.
Proof.
  exact (proj2 (at_most_five_requests Sample.lookup Sample.gitHubHeaders
                  lexicalCompare Sample.decode ["std@v1"%string] true
                  (Sample.world [Sample.contents; Sample.readmeText]))
           "std"%string "v1"%string eq_refl eq_refl).
Defined.
